(** * Verification of lambda_vsa_data.py (employee / application VSA sync)

    A shallow embedding of the Lambda function that reads two Google
    worksheets and upserts them into two PostgreSQL tables.  Python
    exceptions are modelled by the [result] type below; the database,
    the secret store, the sheet service and the file system are modelled
    as explicit state and environment records. *)

From Stdlib Require Import String Ascii.
From stdpp Require Import base list gmap strings.

Open Scope string_scope.
#[local] Set Warnings "-register-all".

(* ------------------------------------------------------------------ *)
(** ** Python exceptions and the result monad *)

(** Reasons a PostgreSQL call raises (psycopg2.Error and subclasses). *)
Inductive db_error :=
| ConnectRefused          (** psycopg2.connect raises OperationalError *)
| ArityMismatch           (** VALUES row length differs from the column list *)
| AffectRowTwice          (** ON CONFLICT DO UPDATE cannot affect row a second time *)
| StatementFailed         (** statement timeout, dropped connection, ... *)
| CommitFailed.

Inductive exc :=
| IndexError
| ValueError
| RecursionError
| KeyError (k : string)
| TypeError
| JSONDecodeError
| ClientError (msg : string)    (** botocore ClientError *)
| OSError                       (** file system failure *)
| SheetError (msg : string)     (** pygsheets / Google API failure *)
| DbError (e : db_error).

Inductive result (A : Type) :=
| Ok (a : A)
| Raise (e : exc).
Arguments Ok {A} a.
Arguments Raise {A} e.

Global Instance db_error_eq_dec : EqDecision db_error.
Proof. solve_decision. Defined.
Global Instance exc_eq_dec : EqDecision exc.
Proof. solve_decision. Defined.
Global Instance result_eq_dec {A} `{EqDecision A} : EqDecision (result A).
Proof. solve_decision. Defined.

(** Decide an equality of computed values by evaluating its boolean test. *)
Ltac vm_decide :=
  match goal with |- ?P => apply (bool_decide_unpack P); vm_compute; exact I end.

Global Instance result_ret : MRet result := fun _ a => Ok a.
Global Instance result_bind : MBind result :=
  fun _ _ f m => match m with Ok a => f a | Raise e => Raise e end.

(** [ys.index(x)]: the first position, [ValueError] when absent. *)
Fixpoint py_index (ys : list string) (x : string) : result nat :=
  match ys with
  | [] => Raise ValueError
  | y :: ys' =>
      if decide (y = x) then Ok 0
      else i ← py_index ys' x; Ok (S i)
  end.

(** [row[i]] for a non-negative index. *)
Definition py_getitem {A} (row : list A) (i : nat) : result A :=
  match row !! i with Some v => Ok v | None => Raise IndexError end.

(** [data[1:]]: slicing never raises. *)
Definition py_slice1 {A} (l : list A) : list A := drop 1 l.

(* ------------------------------------------------------------------ *)
(** ** Rows, schemas and the duplicate filter of import_app_data_to_postgres *)

(** A worksheet row as returned by [get_all_values]; [tuple(row)] is the
    same sequence of cells. *)
Abbreviation row := (list string) (only parsing).

Definition emp_columns : list string :=
  ["name"; "email"; "vsa_uspr_access"; "vsa_pe_access"; "vsa_noc_access";
   "vsa_dci_access"; "vsa_sc_access"].

Definition app_columns : list string :=
  ["name"; "owner"; "vsa_type"; "vsa_uspr"; "vsa_pe"; "vsa_noc"; "vsa_dci";
   "vsa_sc"].

Definition unique_columns_emp : list string := ["email"].
Definition unique_columns_apps : list string := ["name"].

(** [tuple(row[columns.index(col)] for col in unique_columns)] *)
Fixpoint unique_key (columns unique_columns : list string) (r : row)
    : result (list string) :=
  match unique_columns with
  | [] => Ok []
  | col :: cols =>
      i ← py_index columns col;
      v ← py_getitem r i;
      vs ← unique_key columns cols r;
      Ok (v :: vs)
  end.

(** The loop
<<
    seen = set(); unique_values = []
    for row in values:
        unique_key = ...
        if unique_key not in seen:
            seen.add(unique_key); unique_values.append(row)
>>
    written as a recursion over [values] carrying [seen]. *)
Fixpoint dedup_loop (columns unique_columns : list string)
    (seen : gset (list string)) (values : list row) : result (list row) :=
  match values with
  | [] => Ok []
  | r :: rest =>
      k ← unique_key columns unique_columns r;
      if decide (k ∈ seen) then dedup_loop columns unique_columns seen rest
      else
        rs ← dedup_loop columns unique_columns ({[k]} ∪ seen) rest;
        Ok (r :: rs)
  end.

(** Rows handed to [execute_values] by import_emp_data_to_postgres:
    [values = [tuple(row) for row in data[1:]]]. *)
Definition emp_batch (data : list row) : result (list row) :=
  Ok (py_slice1 data).

(** Rows handed to [execute_values] by import_app_data_to_postgres. *)
Definition app_batch (data : list row) : result (list row) :=
  dedup_loop app_columns unique_columns_apps ∅ (py_slice1 data).

Definition header : row := ["name"; "email"; "a"; "b"; "c"; "d"; "e"].
Definition alice : row := ["Alice"; "a@x.com"; "Y"; "N"; "N"; "N"; "N"].
Definition alice2 : row := ["Alice2"; "a@x.com"; "N"; "N"; "N"; "N"; "N"].
Definition app1 : row := ["Portal"; "bob"; "web"; "Y"; "N"; "N"; "N"; "N"].
Definition app2 : row := ["Portal"; "carol"; "db"; "N"; "N"; "N"; "N"; "N"].

(* ------------------------------------------------------------------ *)
(** ** The destination table and the upsert statement

    The upsert query built by both import functions is
<<
    INSERT INTO t (columns) VALUES %s
    ON CONFLICT (unique_columns) DO UPDATE SET col=EXCLUDED.col, ...
>>
    with one [SET] item for every column not in [unique_columns].  A table
    row is a map from column name to value; it may carry columns outside
    [columns] (absent from the map when never set).  The table is indexed
    by the tuple of its conflict-target values. *)

Abbreviation drow := (gmap string string) (only parsing).
Abbreviation table := (gmap (list string) (gmap string string)) (only parsing).

(** The columns listed in [update_clause]. *)
Definition update_columns (columns unique_columns : list string) : list string :=
  filter (fun col => col ∉ unique_columns) columns.

(** [EXCLUDED.col]: the incoming value of column [col]. *)
Definition excluded (columns : list string) (r : row) (col : string)
    : option string :=
  match py_index columns col with Ok i => r !! i | Raise _ => None end.

(** A freshly inserted row: the listed columns get the incoming values. *)
Definition new_row (columns : list string) (r : row) : drow :=
  list_to_map (zip columns r).

(** [DO UPDATE SET col=EXCLUDED.col, ...] applied to the existing row. *)
Definition set_excluded (columns unique_columns : list string) (r : row)
    (old : drow) : drow :=
  fold_left (fun acc col =>
      match excluded columns r col with
      | Some v => <[col := v]> acc
      | None => acc
      end) (update_columns columns unique_columns) old.

(** The effect of one VALUES row whose conflict-target tuple is [k]. *)
Definition upsert_row (columns unique_columns : list string) (t : table)
    (kr : list string * row) : table :=
  let '(k, r) := kr in
  match t !! k with
  | Some old => <[k := set_excluded columns unique_columns r old]> t
  | None => <[k := new_row columns r]> t
  end.

(** The checks PostgreSQL makes on one statement before changing the table:
    every VALUES row has as many values as the column list, every row has
    a conflict-target tuple, and no two rows of the statement hit the same
    tuple ("ON CONFLICT DO UPDATE command cannot affect row a second
    time").  None of them depends on the table contents. *)
Definition check_page (columns unique_columns : list string) (page : list row)
    : result (list (list string * row)) :=
  if decide (Forall (fun r => length r = length columns) page) then
    match mapM (fun r => k ← unique_key columns unique_columns r; Ok (k, r)) page
    with
    | Ok kps =>
        if decide (NoDup kps.*1) then Ok kps else Raise (DbError AffectRowTwice)
    | Raise _ => Raise (DbError ArityMismatch)
    end
  else Raise (DbError ArityMismatch).

(** [cur.mogrify(template, args)] for one VALUES row, on the client,
    against the template [(%s,...,%s)] of [n] placeholders: a row with
    fewer values raises IndexError ("tuple index out of range"), one with
    more raises TypeError ("not all arguments converted during string
    formatting"). *)
Definition mogrify (n : nat) (r : row) : result unit :=
  if decide (length r < n) then Raise IndexError
  else if decide (n < length r) then Raise TypeError
  else Ok ().

(** One [INSERT ... ON CONFLICT] statement on the open transaction. *)
Definition exec_statement (columns unique_columns : list string)
    (page : list row) (t : table) : result table :=
  kps ← check_page columns unique_columns page;
  Ok (fold_left (upsert_row columns unique_columns) kps t).

(** psycopg2's [_paginate(argslist, page_size)]: full pages of
    [page_size] rows, then the remainder if it is not empty. *)
Fixpoint paginate_fuel {A} (fuel page_size : nat) (l : list A) : list (list A) :=
  match fuel with
  | 0 => []
  | S fuel' =>
      match l with
      | [] => []
      | _ => take page_size l :: paginate_fuel fuel' page_size (drop page_size l)
      end
  end.

Definition paginate {A} (page_size : nat) (l : list A) : list (list A) :=
  paginate_fuel (length l) page_size l.

(** How [conn.commit()] ends. *)
Inductive commit_outcome :=
| Committed          (** the server commits and the call returns *)
| CommitRolledBack   (** the call raises and the server did not commit *)
| CommitReplyLost.   (** the server commits, but the connection drops
                         before the reply arrives and the call raises *)

(** What the database server and the network do during one call. *)
Record db_env := {
  connect_ok : bool;             (** psycopg2.connect succeeds *)
  statement_ok : nat -> bool;    (** statement number i completes *)
  commit_result : commit_outcome (** how conn.commit() ends *)
}.

Definition reliable_db : db_env :=
  {| connect_ok := true; statement_ok := fun _ => true; commit_result := Committed |}.

(** The number of placeholders of [execute_values]' template: with
    [template=None] it is built once, from [len(page[0])] of the first
    page, and reused for every page. *)
Definition template_arity (pages : list (list row)) : nat :=
  match pages with
  | (r :: _) :: _ => length r
  | _ => 0
  end.

(** The loop of [extras.execute_values(cursor, upsert_query, values)]: for
    each page every row is mogrified on the client, then the page is sent
    as one statement; all statements run on the same transaction. *)
Fixpoint exec_pages (columns unique_columns : list string) (env : db_env)
    (n i : nat) (pages : list (list row)) (t : table) : result table :=
  match pages with
  | [] => Ok t
  | page :: rest =>
      _ ← mapM (mogrify n) page;
      if statement_ok env i then
        t' ← exec_statement columns unique_columns page t;
        exec_pages columns unique_columns env n (S i) rest t'
      else Raise (DbError StatementFailed)
  end.

(** [execute_values] with the default [page_size=100]. *)
Definition execute_values (columns unique_columns : list string)
    (env : db_env) (values : list row) (t : table) : result table :=
  let pages := paginate 100 values in
  exec_pages columns unique_columns env (template_arity pages) 0 pages t.

(** The body of an import function after [connect]: [prepare] computes the
    VALUES rows (it may raise before anything is written); the statements
    run on the pending transaction, and only [conn.commit()] makes them
    visible.  The result pairs the outcome with the committed table: on
    an exception before [commit] the connection is dropped with the
    transaction open and the server rolls it back; a [commit] that raises
    has committed the statements exactly when its reply was lost. *)
Definition import_to_postgres (columns unique_columns : list string)
    (prepare : list row -> result (list row))
    (env : db_env) (data : list row) (t : table) : result unit * table :=
  if connect_ok env then
    match prepare data with
    | Raise e => (Raise e, t)
    | Ok values =>
        match execute_values columns unique_columns env values t with
        | Raise e => (Raise e, t)
        | Ok t' =>
            match commit_result env with
            | Committed => (Ok (), t')
            | CommitRolledBack => (Raise (DbError CommitFailed), t)
            | CommitReplyLost => (Raise (DbError CommitFailed), t')
            end
        end
    end
  else (Raise (DbError ConnectRefused), t).

(* ------------------------------------------------------------------ *)
(** ** get_secrets and the part of [json.loads] it relies on

    Python values produced by [json.loads]; a plain [str] secret is a
    [JStr].  Strings are byte strings here; a [\uXXXX] escape below 128
    is decoded, any other one is kept as its six source characters (the
    accept/reject behaviour is that of CPython's scanner either way). *)
Inductive pyjson :=
| JNull
| JBool (b : bool)
| JNum (lexeme : string)          (** int, float, NaN or +/-Infinity *)
| JStr (s : string)
| JArr (xs : list pyjson)
| JObj (kvs : list (string * pyjson)).   (** a dict, in insertion order *)

(** The double-quote character. *)
Definition dquote : ascii := ascii_of_nat 34.

(** [q s] is [s] between double quotes. *)
Definition q (s : string) : string := String dquote (s ++ String dquote EmptyString).

Definition is_ws (c : ascii) : bool :=
  Ascii.eqb c " " || Ascii.eqb c (ascii_of_nat 9) || Ascii.eqb c (ascii_of_nat 10)
  || Ascii.eqb c (ascii_of_nat 13).

Fixpoint skip_ws (s : string) : string :=
  match s with
  | String c r => if is_ws c then skip_ws r else s
  | EmptyString => EmptyString
  end.

Definition in_range (lo hi : nat) (c : ascii) : bool :=
  Nat.leb lo (nat_of_ascii c) && Nat.leb (nat_of_ascii c) hi.

Definition is_digit (c : ascii) : bool := in_range 48 57 c.
Definition is_hex (c : ascii) : bool :=
  is_digit c || in_range 97 102 c || in_range 65 70 c.

Definition hex_val (c : ascii) : nat :=
  if is_digit c then nat_of_ascii c - 48
  else if in_range 97 102 c then nat_of_ascii c - 87
  else nat_of_ascii c - 55.

(** The longest prefix of decimal digits. *)
Fixpoint digits (s : string) : string * string :=
  match s with
  | String c r =>
      if is_digit c then let '(d, rest) := digits r in (String c d, rest)
      else (EmptyString, s)
  | EmptyString => (EmptyString, EmptyString)
  end.

Definition strip_prefix (p s : string) : option string :=
  if String.prefix p s then Some (substring (String.length p) (String.length s) s)
  else None.

(** json.scanner's NUMBER_RE: an optional minus sign, then 0 or a nonzero
    digit followed by digits, an optional fraction (a dot and at least one
    digit), an optional exponent (e or E, an optional sign, at least one
    digit); optional parts that do not match are left in the input. *)
Definition lex_number (s : string) : option (string * string) :=
  let '(sign, s1) :=
    match s with
    | String c r => if Ascii.eqb c "-" then ("-", r) else (EmptyString, s)
    | EmptyString => (EmptyString, s)
    end in
  match s1 with
  | String c r =>
      if Ascii.eqb c "0" || (is_digit c && negb (Ascii.eqb c "0")) then
        let '(ip, s2) :=
          if Ascii.eqb c "0" then ("0", r)
          else let '(d, r') := digits r in (String c d, r') in
        let '(fp, s3) :=
          match s2 with
          | String dot (String d r') =>
              if Ascii.eqb dot "." && is_digit d then
                let '(ds, r'') := digits r' in ("." ++ String d ds, r'')
              else (EmptyString, s2)
          | _ => (EmptyString, s2)
          end in
        let exp_digits (pre : string) (t : string) :=
          match t with
          | String d r' =>
              if is_digit d then let '(ds, r'') := digits r' in
                Some (pre ++ String d ds, r'')
              else None
          | EmptyString => None
          end in
        let '(ep, s4) :=
          match s3 with
          | String e r' =>
              if Ascii.eqb e "e" || Ascii.eqb e "E" then
                match
                  match r' with
                  | String sg r'' =>
                      if Ascii.eqb sg "+" || Ascii.eqb sg "-"
                      then exp_digits (String e (String sg EmptyString)) r''
                      else exp_digits (String e EmptyString) r'
                  | EmptyString => None
                  end
                with Some p => p | None => (EmptyString, s3) end
              else (EmptyString, s3)
          | EmptyString => (EmptyString, s3)
          end in
        Some (sign ++ ip ++ fp ++ ep, s4)
      else None
  | EmptyString => None
  end.

Definition simple_escape (e : ascii) : option ascii :=
  if Ascii.eqb e dquote then Some dquote
  else if Ascii.eqb e "\" then Some "\"%char
  else if Ascii.eqb e "/" then Some "/"%char
  else if Ascii.eqb e "b" then Some (ascii_of_nat 8)
  else if Ascii.eqb e "f" then Some (ascii_of_nat 12)
  else if Ascii.eqb e "n" then Some (ascii_of_nat 10)
  else if Ascii.eqb e "r" then Some (ascii_of_nat 13)
  else if Ascii.eqb e "t" then Some (ascii_of_nat 9)
  else None.

(** [scanstring] (strict mode) after the opening quote: the contents and
    the rest of the input. *)
Fixpoint scan_string (s : string) : option (string * string) :=
  match s with
  | EmptyString => None
  | String c r =>
      if Ascii.eqb c dquote then Some (EmptyString, r)
      else if Ascii.eqb c "\" then
        match r with
        | String e r' =>
            if Ascii.eqb e "u" then
              match r' with
              | String h1 (String h2 (String h3 (String h4 r''))) =>
                  if is_hex h1 && is_hex h2 && is_hex h3 && is_hex h4 then
                    let code := hex_val h1 * 4096 + hex_val h2 * 256
                                + hex_val h3 * 16 + hex_val h4 in
                    let dec := if Nat.ltb code 128 then String (ascii_of_nat code) EmptyString
                               else String c (String e (String h1 (String h2
                                      (String h3 (String h4 EmptyString))))) in
                    '(body, rest) ← scan_string r''; Some (dec ++ body, rest)
                  else None
              | _ => None
              end
            else
              match simple_escape e with
              | Some ch => '(body, rest) ← scan_string r'; Some (String ch body, rest)
              | None => None
              end
        | EmptyString => None
        end
      else if Nat.ltb (nat_of_ascii c) 32 then None
      else '(body, rest) ← scan_string r; Some (String c body, rest)
  end.

(** [dict(pairs)]: a repeated key keeps its first position and last value. *)
Definition py_dict (kvs : list (string * pyjson)) : list (string * pyjson) :=
  fold_left (fun acc '(k, v) =>
      if existsb (fun kv => String.eqb kv.1 k) acc
      then map (fun kv => if String.eqb kv.1 k then (k, v) else kv) acc
      else app acc [(k, v)]) kvs [].

(** The interpreter limits [json.loads] runs into.  [recursion_budget]
    is how many nested JSON objects and arrays the C scanner can still
    enter before [Py_EnterRecursiveCall] raises RecursionError: what the
    frames already on the stack leave of the recursion limit.
    [int_max_str_digits] is [sys.get_int_max_str_digits()] (4300 by
    default; 0 turns the check off). *)
Record py_limits := {
  recursion_budget : nat;
  int_max_str_digits : nat
}.

(** A number lexeme without fraction or exponent, which the scanner turns
    into an [int]. *)
Definition is_int_lexeme (lexeme : string) : bool :=
  negb (existsb (fun c => Ascii.eqb c "." || Ascii.eqb c "e" || Ascii.eqb c "E")
          (list_ascii_of_string lexeme)).

(** The number of digits of an integer lexeme. *)
Definition int_digits (lexeme : string) : nat :=
  match lexeme with
  | String c r => if Ascii.eqb c "-" then String.length r else String.length lexeme
  | EmptyString => 0
  end.

(** The conversion of a matched number: [int(lexeme)] raises ValueError
    ("Exceeds the limit (4300 digits) for integer string conversion")
    past [int_max_str_digits] digits; [float(lexeme)] has no limit. *)
Definition py_number (lim : py_limits) (lexeme : string) : result pyjson :=
  if is_int_lexeme lexeme && negb (Nat.eqb (int_max_str_digits lim) 0)
     && Nat.ltb (int_max_str_digits lim) (int_digits lexeme)
  then Raise ValueError
  else Ok (JNum lexeme).

(** [scan_once], [JSONObject] and [JSONArray].  [depth] is what is left of
    the recursion budget: entering an object or an array with nothing left
    raises RecursionError.  The fuel only makes the recursion structural;
    [json_loads] gives one more than the input length, and every nested
    call consumes at least one character, so it never runs out on a real
    input. *)
Fixpoint scan_value (lim : py_limits) (fuel depth : nat) (s : string)
    : result (pyjson * string) :=
  match fuel with
  | 0 => Raise JSONDecodeError
  | S f =>
      match s with
      | EmptyString => Raise JSONDecodeError
      | String c r =>
          if Ascii.eqb c dquote then
            match scan_string r with
            | Some (str, rest) => Ok (JStr str, rest)
            | None => Raise JSONDecodeError
            end
          else if Ascii.eqb c "{" then
            match depth with
            | 0 => Raise RecursionError
            | S d =>
                match skip_ws r with
                | String c' r' =>
                    if Ascii.eqb c' "}" then Ok (JObj [], r')
                    else '(kvs, rest) ← scan_members lim f d (skip_ws r);
                         Ok (JObj (py_dict kvs), rest)
                | EmptyString => Raise JSONDecodeError
                end
            end
          else if Ascii.eqb c "[" then
            match depth with
            | 0 => Raise RecursionError
            | S d =>
                match skip_ws r with
                | String c' r' =>
                    if Ascii.eqb c' "]" then Ok (JArr [], r')
                    else '(xs, rest) ← scan_elems lim f d (skip_ws r); Ok (JArr xs, rest)
                | EmptyString => Raise JSONDecodeError
                end
            end
          else
            match strip_prefix "null" s with Some rest => Ok (JNull, rest) | None =>
            match strip_prefix "true" s with Some rest => Ok (JBool true, rest) | None =>
            match strip_prefix "false" s with Some rest => Ok (JBool false, rest) | None =>
            match strip_prefix "NaN" s with Some rest => Ok (JNum "NaN", rest) | None =>
            match strip_prefix "Infinity" s with Some rest => Ok (JNum "Infinity", rest) | None =>
            match strip_prefix "-Infinity" s with Some rest => Ok (JNum "-Infinity", rest) | None =>
              match lex_number s with
              | Some (lexeme, rest) => v ← py_number lim lexeme; Ok (v, rest)
              | None => Raise JSONDecodeError
              end
            end end end end end end
      end
  end
(** Object members, from the opening quote of a key. *)
with scan_members (lim : py_limits) (fuel depth : nat) (s : string)
    : result (list (string * pyjson) * string) :=
  match fuel with
  | 0 => Raise JSONDecodeError
  | S f =>
      match s with
      | String c r =>
          if Ascii.eqb c dquote then
            match scan_string r with
            | Some (k, r1) =>
                match skip_ws r1 with
                | String colon r2 =>
                    if Ascii.eqb colon ":" then
                      '(v, r3) ← scan_value lim f depth (skip_ws r2);
                      match skip_ws r3 with
                      | String d r4 =>
                          if Ascii.eqb d "}" then Ok ([(k, v)], r4)
                          else if Ascii.eqb d "," then
                            '(kvs, r5) ← scan_members lim f depth (skip_ws r4);
                            Ok ((k, v) :: kvs, r5)
                          else Raise JSONDecodeError
                      | EmptyString => Raise JSONDecodeError
                      end
                    else Raise JSONDecodeError
                | EmptyString => Raise JSONDecodeError
                end
            | None => Raise JSONDecodeError
            end
          else Raise JSONDecodeError
      | EmptyString => Raise JSONDecodeError
      end
  end
(** Array elements, from the first character of a value. *)
with scan_elems (lim : py_limits) (fuel depth : nat) (s : string)
    : result (list pyjson * string) :=
  match fuel with
  | 0 => Raise JSONDecodeError
  | S f =>
      '(v, r1) ← scan_value lim f depth s;
      match skip_ws r1 with
      | String d r2 =>
          if Ascii.eqb d "]" then Ok ([v], r2)
          else if Ascii.eqb d "," then
            '(vs, r3) ← scan_elems lim f depth (skip_ws r2); Ok (v :: vs, r3)
          else Raise JSONDecodeError
      | EmptyString => Raise JSONDecodeError
      end
  end.

(** [json.loads(s)]: leading and trailing whitespace is allowed, anything
    else after the value is "Extra data". *)
Definition json_loads (lim : py_limits) (s : string) : result pyjson :=
  match scan_value lim (S (String.length s)) (recursion_budget lim) (skip_ws s) with
  | Ok (v, rest) =>
      match skip_ws rest with
      | EmptyString => Ok v
      | String _ _ => Raise JSONDecodeError
      end
  | Raise e => Raise e
  end.

(** The value part of [get_secrets]:
    [return json.loads(secret) if secret.startswith('{') else secret]. *)
Definition decode_secret (lim : py_limits) (secret : string) : result pyjson :=
  if String.prefix "{" secret then json_loads lim secret else Ok (JStr secret).

(** [get_secrets(secret_name, region_name)]: [store] is the Secrets
    Manager call [client.get_secret_value(...)['SecretString']], which may
    raise. *)
Definition get_secrets (lim : py_limits) (store : string -> result string)
    (secret_name : string) : result pyjson :=
  secret ← store secret_name; decode_secret lim secret.

(* ------------------------------------------------------------------ *)
(** ** Statements with state and exceptions

    [PyM S A] runs a Python statement sequence on a state [S]; an
    exception keeps the side effects done before it. *)
Definition PyM (S A : Type) : Type := S -> result A * S.

Definition pret {S A} (a : A) : PyM S A := fun s => (Ok a, s).
Definition pbind {S A B} (m : PyM S A) (k : A -> PyM S B) : PyM S B :=
  fun s => match m s with
           | (Ok a, s') => k a s'
           | (Raise e, s') => (Raise e, s')
           end.
Definition praise {S A} (e : exc) : PyM S A := fun s => (Raise e, s).
Definition lift_result {S A} (r : result A) : PyM S A := fun s => (r, s).
Definition pget {S} : PyM S S := fun s => (Ok s, s).
Definition pmodify {S} (f : S -> S) : PyM S unit := fun s => (Ok (), f s).

Notation "'let*' x := m 'in' k" := (pbind m (fun x => k))
  (at level 200, x name, m at level 100, k at level 200, right associativity).

(** [try: body finally: fin]: [fin] runs on both exits; an exception it
    raises replaces the body's outcome. *)
Definition try_finally {S A} (body : PyM S A) (fin : PyM S unit) : PyM S A :=
  fun s => let '(r, s1) := body s in
           let '(rf, s2) := fin s1 in
           match rf with Raise e => (Raise e, s2) | Ok _ => (r, s2) end.

(** An external call that completes or raises [e]. *)
Definition step {S} (ok : bool) (e : exc) : PyM S unit :=
  if ok then pret () else praise e.

(* ------------------------------------------------------------------ *)
(** ** read_google_sheet_data

    The state is the set of files on disk together with the two locals
    [temp_file_path] and [sheets_token_path], which the [finally] block
    reads. *)
Record reader_state := {
  files : gset string;
  temp_file_path : option string;
  sheets_token_path : option string
}.

(** What the file system and the sheet service do during one call. *)
Record fs_env := {
  tmp_name : string;          (** the name NamedTemporaryFile picks *)
  tmp_create_ok : bool;       (** the temporary file is created *)
  cred_dump_ok : bool;        (** json.dump(credentials, temp_file) completes *)
  token_open_ok : bool;       (** open(sheets_token_path, 'w') succeeds *)
  token_dump_ok : bool        (** json.dump(gapi_sheets_token, ...) completes *)
}.

Definition sheets_token_file : string := "/tmp/sheets.googleapis.com-python.json".

Definition create_file (p : string) : PyM reader_state unit :=
  pmodify (fun st => {| files := {[p]} ∪ files st; temp_file_path := temp_file_path st;
                        sheets_token_path := sheets_token_path st |}).

Definition remove_file (p : string) : PyM reader_state unit :=
  pmodify (fun st => {| files := files st ∖ {[p]}; temp_file_path := temp_file_path st;
                        sheets_token_path := sheets_token_path st |}).

Definition set_temp_file_path (p : string) : PyM reader_state unit :=
  pmodify (fun st => {| files := files st; temp_file_path := Some p;
                        sheets_token_path := sheets_token_path st |}).

Definition set_sheets_token_path (p : string) : PyM reader_state unit :=
  pmodify (fun st => {| files := files st; temp_file_path := temp_file_path st;
                        sheets_token_path := Some p |}).

(** The [try] block.  [service] stands for pygsheets: authorize,
    open_by_url, worksheet_by_title and get_all_values. *)
Definition read_body (env : fs_env)
    (service : string -> string -> result (list row))
    (sheet_url worksheet_name : string) : PyM reader_state (list row) :=
  let* _ := step (tmp_create_ok env) OSError in
  let* _ := create_file (tmp_name env) in
  let* _ := step (cred_dump_ok env) OSError in
  let* _ := set_temp_file_path (tmp_name env) in
  let* _ := set_sheets_token_path sheets_token_file in
  let* _ := step (token_open_ok env) OSError in
  let* _ := create_file sheets_token_file in
  let* _ := step (token_dump_ok env) OSError in
  lift_result (service sheet_url worksheet_name).

(** [if path and os.path.exists(path): os.remove(path)] *)
Definition remove_if_exists (path : option string) : PyM reader_state unit :=
  let* st := pget in
  match path with
  | Some p => if decide (p ≠ "" ∧ p ∈ files st) then remove_file p else pret ()
  | None => pret ()
  end.

Definition cleanup : PyM reader_state unit :=
  let* st := pget in
  let* _ := remove_if_exists (temp_file_path st) in
  let* st' := pget in
  remove_if_exists (sheets_token_path st').

(** The whole function on the files present at the call.  The
    [except Exception: ...; raise] clause only logs and re-raises. *)
Definition read_google_sheet_data (env : fs_env)
    (service : string -> string -> result (list row))
    (sheet_url worksheet_name : string) (credentials gapi_sheets_token : pyjson)
    (fs : gset string) : result (list row) * gset string :=
  let '(r, st) :=
    try_finally (read_body env service sheet_url worksheet_name) cleanup
      {| files := fs; temp_file_path := None; sheets_token_path := None |} in
  (r, files st).

(* ------------------------------------------------------------------ *)
(** ** The two import functions

    [connect] is the database server and network as seen through
    [psycopg2.connect] with keyword arguments: the behaviour of the session opened
    with those keyword arguments. *)
Abbreviation kwargs := (list (string * pyjson)) (only parsing).

(** The keyword arguments of [psycopg2.connect] in
    import_emp_data_to_postgres: the entries of [db_config] only. *)
Definition emp_connect_kwargs (db_config : list (string * pyjson)) : list (string * pyjson) :=
  db_config.

(** The keyword arguments of [psycopg2.connect] in
    import_app_data_to_postgres: the entries of [db_config], then
    [connect_timeout=10, options='-c statement_timeout=30000']. *)
Definition app_connect_kwargs (db_config : list (string * pyjson)) : list (string * pyjson) :=
  app db_config [("connect_timeout", JNum "10"); ("options", JStr "-c statement_timeout=30000")].

Definition import_emp_data_to_postgres (connect : list (string * pyjson) -> db_env)
    (data : list row) (db_config : list (string * pyjson)) (t : table)
    : result unit * table :=
  import_to_postgres emp_columns unique_columns_emp emp_batch
    (connect (emp_connect_kwargs db_config)) data t.

Definition import_app_data_to_postgres (connect : list (string * pyjson) -> db_env)
    (data : list row) (db_config : list (string * pyjson)) (t : table)
    : result unit * table :=
  import_to_postgres app_columns unique_columns_apps app_batch
    (connect (app_connect_kwargs db_config)) data t.

(* ------------------------------------------------------------------ *)
(** ** lambda_handler *)

(** [value[key]] on a value returned by [json.loads] or [get_secrets]. *)
Definition py_subscript (v : pyjson) (key : string) : result pyjson :=
  match v with
  | JObj kvs =>
      match list_find (fun kv => kv.1 = key) kvs with
      | Some (_, kv) => Ok kv.2
      | None => Raise (KeyError key)
      end
  | _ => Raise TypeError
  end.

(** [str(e)] *)
Definition exc_str (e : exc) : string :=
  match e with
  | IndexError => "list index out of range"
  | ValueError => "value is not in list"
  | RecursionError => "maximum recursion depth exceeded while decoding a JSON object from a unicode string"
  | KeyError k => "'" ++ k ++ "'"
  | TypeError => "object is not subscriptable"
  | JSONDecodeError => "Expecting value"
  | ClientError m => m
  | OSError => "No space left on device"
  | SheetError m => m
  | DbError ConnectRefused => "connection refused"
  | DbError ArityMismatch => "VALUES lists must all be the same length"
  | DbError AffectRowTwice => "ON CONFLICT DO UPDATE command cannot affect row a second time"
  | DbError StatementFailed => "canceling statement due to statement timeout"
  | DbError CommitFailed => "server closed the connection unexpectedly"
  end.

(** The returned dict; [body] is the value given to [json.dumps]. *)
Record response := { statusCode : nat; body : pyjson }.

(** Everything outside the process during one invocation. *)
Record world := {
  secret_store : string -> result string;
  limits : py_limits;
  sheet_service : string -> string -> result (list row);
  fs_emp_read : fs_env;
  fs_app_read : fs_env;
  db_connect : list (string * pyjson) -> db_env
}.

(** The state the invocation changes: files on disk and the two tables. *)
Record handler_state := {
  disk : gset string;
  emp_table : table;
  app_table : table
}.

Definition read_sheet (env : fs_env) (service : string -> string -> result (list row))
    (url ws : string) (credentials token : pyjson) : PyM handler_state (list row) :=
  fun hs => let '(r, fs') := read_google_sheet_data env service url ws credentials token (disk hs) in
            (r, {| disk := fs'; emp_table := emp_table hs; app_table := app_table hs |}).

Definition import_emp (connect : list (string * pyjson) -> db_env) (data : list row)
    (db_config : list (string * pyjson)) : PyM handler_state unit :=
  fun hs => let '(r, t') := import_emp_data_to_postgres connect data db_config (emp_table hs) in
            (r, {| disk := disk hs; emp_table := t'; app_table := app_table hs |}).

Definition import_app (connect : list (string * pyjson) -> db_env) (data : list row)
    (db_config : list (string * pyjson)) : PyM handler_state unit :=
  fun hs => let '(r, t') := import_app_data_to_postgres connect data db_config (app_table hs) in
            (r, {| disk := disk hs; emp_table := emp_table hs; app_table := t' |}).

Definition sheet_url_emp : string :=
  "https://docs.google.com/spreadsheets/d/19vvQgQkJg0y7g_P6L4yENgOnO-vAHDsg7dOX556ZXJM/edit?usp=sharing".
Definition sheet_url_apps : string :=
  "https://docs.google.com/spreadsheets/d/1lAWbVaBkee1ruKvIdIly33hRLlVv4b_HlexzXu1l2kI/edit?usp=sharing".

(** The [try] block of lambda_handler (the prints are omitted). *)
Definition handler_body (w : world) : PyM handler_state response :=
  let store := secret_store w in
  let lim := limits w in
  let* db_secrets := lift_result (get_secrets lim store "Vonage/cloudquery/cloudquery") in
  let* google_secrets0 := lift_result (get_secrets lim store "vonage/googleapi/sheets") in
  let* gapi_sheets_token :=
    lift_result (get_secrets lim store "vonage/googleapi/sheets-tokens") in
  let* google_secrets :=
    lift_result (match google_secrets0 with JStr s => json_loads lim s | v => Ok v end) in
  let* host := lift_result (py_subscript db_secrets "host") in
  let* port := lift_result (py_subscript db_secrets "port") in
  let* user := lift_result (py_subscript db_secrets "rw-user") in
  let* password := lift_result (py_subscript db_secrets "password") in
  let db_config := [("host", host); ("port", port); ("user", user); ("password", password)] in
  let* data_emp := read_sheet (fs_emp_read w) (sheet_service w) sheet_url_emp
                     "VonagePersonVSAAttributes" google_secrets gapi_sheets_token in
  let* data_apps := read_sheet (fs_app_read w) (sheet_service w) sheet_url_apps
                      "Current VSA Master List" google_secrets gapi_sheets_token in
  let* _ := import_emp (db_connect w) data_emp db_config in
  let* _ := import_app (db_connect w) data_apps db_config in
  pret {| statusCode := 200; body := JObj [("message", JStr "Success")] |}.

(** [try: ... except Exception as e: return {'statusCode': 500, ...}] *)
Definition lambda_handler (w : world) (hs : handler_state) : response * handler_state :=
  match handler_body w hs with
  | (Ok resp, hs') => (resp, hs')
  | (Raise e, hs') => ({| statusCode := 500; body := JObj [("error", JStr (exc_str e))] |}, hs')
  end.

(** The input constraint of the worksheet rows: at least one cell per
    schema column. *)
Definition row_ok (columns : list string) (r : row) : Prop :=
  length columns <= length r.

Definition db_config_example : list (string * pyjson) :=
  [("host", JStr "db"); ("port", JStr "5432"); ("user", JStr "rw");
   ("password", JStr "pw")].

Definition app3 : row := ["Portal"; "dave"; "ml"; "N"; "N"; "N"; "N"; "N"].

(** A stored application row for "Portal" with one column outside the
    listed ones. *)
Definition stored_portal : drow :=
  <["id" := "7"]> (new_row app_columns app2).



(** The secret text [{"host":"db","port":"5432"}]. *)
Definition secret_db_json : string :=
  "{" ++ q "host" ++ ":" ++ q "db" ++ "," ++ q "port" ++ ":" ++ q "5432" ++ "}".

(** A file system on which [json.dump(credentials, temp_file)] fails. *)
Definition fs_dump_fails : fs_env :=
  {| tmp_name := "/tmp/tmpk2x9ab.json"; tmp_create_ok := true; cred_dump_ok := false;
     token_open_ok := true; token_dump_ok := true |}.

(** A file system on which every step of read_google_sheet_data succeeds. *)
Definition fs_all_ok : fs_env :=
  {| tmp_name := "/tmp/tmpq7w3cd.json"; tmp_create_ok := true; cred_dump_ok := true;
     token_open_ok := true; token_dump_ok := true |}.

(** The database secret [{"host":"db","port":"5432","rw-user":"rw","password":"pw"}]. *)
Definition db_secret_text : string :=
  "{" ++ q "host" ++ ":" ++ q "db" ++ "," ++ q "port" ++ ":" ++ q "5432" ++ ","
  ++ q "rw-user" ++ ":" ++ q "rw" ++ "," ++ q "password" ++ ":" ++ q "pw" ++ "}".

(** A secret store holding the database secret and two empty JSON objects. *)
Definition store_example (name : string) : result string :=
  if String.eqb name "Vonage/cloudquery/cloudquery" then Ok db_secret_text else Ok "{}".

(** A sheet service whose application worksheet has a two-cell row. *)
Definition sheets_example (url ws : string) : result (list row) :=
  if String.eqb url sheet_url_emp then Ok [header; alice]
  else Ok [header; ["Wiki"; "dan"]].

(** CPython 3.11's defaults: a recursion limit of 1000 (the frames below
    the scanner leave somewhat less of it) and 4300 digits. *)
Definition cpython_limits : py_limits :=
  {| recursion_budget := 1000; int_max_str_digits := 4300 |}.

(** [n] copies of the character [c]. *)
Fixpoint repeat_char (n : nat) (c : ascii) : string :=
  match n with
  | 0 => EmptyString
  | S n' => String c (repeat_char n' c)
  end.

(** The secret text [{"a": 111...1}] with a 4301-digit integer. *)
Definition secret_long_int : string :=
  "{" ++ q "a" ++ ": " ++ repeat_char 4301 "1" ++ "}".

(** The secret text [{"a": [[[...]]]}] with 1000 nested arrays. *)
Definition secret_deep : string :=
  "{" ++ q "a" ++ ": " ++ repeat_char 1000 "[" ++ repeat_char 1000 "]" ++ "}".

Definition world_example : world :=
  {| secret_store := store_example; limits := cpython_limits; sheet_service := sheets_example;
     fs_emp_read := fs_all_ok; fs_app_read := fs_all_ok;
     db_connect := fun _ => reliable_db |}.

Definition hs_example : handler_state :=
  {| disk := {["/tmp/other.txt"]}; emp_table := ∅; app_table := ∅ |}.

(** An employee table holding one row. *)
Definition emp_table_example : table :=
  {[["a@x.com"] := new_row emp_columns alice]}.

(* ------------------------------------------------------------------ *)
(** ** Auxiliary definitions for the proofs *)

(** The row stored under a conflict-target tuple after one VALUES row [r]
    hits it: [DO UPDATE] of the existing row, or a fresh insert. *)
Definition row_after (columns unique_columns : list string) (r : row)
    (o : option drow) : drow :=
  match o with
  | Some old => set_excluded columns unique_columns r old
  | None => new_row columns r
  end.

(** The last VALUES row with conflict-target tuple [k]. *)
Fixpoint last_with_key (k : list string) (kps : list (list string * row)) : option row :=
  match kps with
  | [] => None
  | (k', r) :: rest =>
      match last_with_key k rest with
      | Some r' => Some r'
      | None => if decide (k' = k) then Some r else None
      end
  end.

(** The checks of all statements of one [execute_values] call, which do
    not depend on the table. *)
Fixpoint pages_check (columns unique_columns : list string) (env : db_env)
    (n i : nat) (pages : list (list row)) : result (list (list string * row)) :=
  match pages with
  | [] => Ok []
  | page :: rest =>
      _ ← mapM (mogrify n) page;
      if statement_ok env i then
        kps ← check_page columns unique_columns page;
        kps' ← pages_check columns unique_columns env n (S i) rest;
        Ok (app kps kps')
      else Raise (DbError StatementFailed)
  end.

(** The conflict-target values of a stored row. *)
Definition row_key (unique_columns : list string) (old : drow) : option (list string) :=
  mapM (fun c => old !! c) unique_columns.

(** The exceptions [json.loads] raises. *)
Definition json_exc (e : exc) : Prop :=
  e = JSONDecodeError \/ e = ValueError \/ e = RecursionError.

(** A VALUES row paired with its conflict-target tuple, as PostgreSQL
    sees it after the statement checks. *)
Definition keyed_ok (columns unique_columns : list string) (kr : list string * row) : Prop :=
  unique_key columns unique_columns kr.2 = Ok kr.1 /\ length kr.2 = length columns.

(* ------------------------------------------------------------------ *)
(** ** Tests of the model on small inputs *)

Example app_batch_test :
  app_batch [header; alice; ["Alice"; "o"]] = Ok [alice].
Proof. vm_compute. reflexivity. Qed.

Example emp_dup_fails :
  fst (import_to_postgres emp_columns unique_columns_emp emp_batch reliable_db
         [header; alice; alice2] ∅)
  = Raise (DbError AffectRowTwice).
Proof. vm_compute. reflexivity. Qed.

Example app_dup_ok :
  (import_to_postgres app_columns unique_columns_apps app_batch reliable_db
     [header; app1; app2] ∅).2 !! ["Portal"]
  = Some (new_row app_columns app1).
Proof. vm_decide. Qed.

Example json_loads_test1 :
  json_loads cpython_limits (" { " ++ q "a" ++ " : [1, -2.5e+3, true, null], " ++ q "b" ++ ": {}, "
              ++ q "a" ++ ":" ++ q "x\n" ++ " } ")
  = Ok (JObj [("a", JStr (String "x" (String (ascii_of_nat 10) EmptyString))); ("b", JObj [])]).
Proof. vm_compute. reflexivity. Qed.

(* ================================================================== *)
(** * Properties *)

Ltac unfold_bind := unfold mbind, result_bind in *.

(* ------------------------------------------------------------------ *)
(** ** Key extraction *)

Lemma py_index_lt (cols : list string) c i :
  py_index cols c = Ok i -> i < length cols.
Proof.
  revert i; induction cols as [|c0 cols IH]; intros i H; simpl in H; [discriminate|].
  destruct (decide (c0 = c)); [injection H as <-; simpl; lia|].
  unfold_bind. destruct (py_index cols c) eqn:E; [|discriminate].
  injection H as <-. specialize (IH _ eq_refl). simpl. lia.
Qed.

Lemma py_index_found (cols : list string) c :
  c ∈ cols -> exists i, py_index cols c = Ok i.
Proof.
  induction cols as [|c0 cols IH]; intros Hin; [set_solver|]. simpl.
  destruct (decide (c0 = c)); [eauto|].
  destruct IH as [i Hi]; [set_solver|]. unfold_bind. rewrite Hi. eauto.
Qed.

Lemma unique_key_exists (cols ucols : list string) (r : row) :
  Forall (fun c => c ∈ cols) ucols -> length cols <= length r ->
  exists k, unique_key cols ucols r = Ok k.
Proof.
  intros Hsub Hlen. induction Hsub as [|c ucols Hc _ IH]; simpl; [eauto|].
  destruct (py_index_found cols c Hc) as [i Hi]. pose proof (py_index_lt _ _ _ Hi).
  destruct (lookup_lt_is_Some_2 r i) as [v Hv]; [lia|].
  destruct IH as [k Hk]. unfold_bind. rewrite Hi. unfold py_getitem. rewrite Hv, Hk. eauto.
Qed.

(* ------------------------------------------------------------------ *)
(** ** The duplicate filter *)

Section Dedup.
Variables columns unique_columns : list string.
Local Abbreviation uk := (unique_key columns unique_columns).

Lemma dedup_loop_ok (seen : gset (list string)) (values : list row) :
    Forall (fun r => exists k, uk r = Ok k) values ->
    exists out, dedup_loop columns unique_columns seen values = Ok out.
  Proof.
    intros Hall. revert seen. induction Hall as [|r values [k Hk] _ IH]; intros seen;
      simpl; [eauto|].
    unfold_bind. rewrite Hk. destruct (decide (k ∈ seen)); [apply IH|].
    destruct (IH ({[k]} ∪ seen)) as [out Hout]. unfold_bind. rewrite Hout. eauto.
  Qed.

Lemma dedup_loop_sublist (seen : gset (list string)) (values out : list row) :
    dedup_loop columns unique_columns seen values = Ok out -> sublist out values.
  Proof.
    revert seen out. induction values as [|r values IH]; intros seen out H; simpl in H.
    - injection H as <-. constructor.
    - unfold_bind. destruct (uk r) as [k|] eqn:Hk; [|discriminate].
      destruct (decide (k ∈ seen)).
      + constructor. eapply IH; eauto.
      + destruct (dedup_loop _ _ _ values) eqn:E; [|discriminate].
        injection H as <-. constructor. eapply IH; eauto.
  Qed.

  (** The output never repeats a key tuple, and no key of [seen] occurs. *)
Lemma dedup_loop_distinct (seen : gset (list string)) (values out : list row) :
    dedup_loop columns unique_columns seen values = Ok out ->
    NoDup (uk <$> out) /\ (forall r, r ∈ out -> exists k, uk r = Ok k /\ k ∉ seen).
  Proof.
    revert seen out. induction values as [|r values IH]; intros seen out H; simpl in H.
    - injection H as <-. split; [constructor|set_solver].
    - unfold_bind. destruct (uk r) as [k|] eqn:Hk; [|discriminate].
      destruct (decide (k ∈ seen)); [eapply IH; eauto|].
      destruct (dedup_loop _ _ _ values) as [rs|] eqn:E; [|discriminate].
      injection H as <-. destruct (IH _ _ E) as [Hnd Hks]. split.
      + simpl. constructor; [|done]. rewrite Hk. intros Hin.
        apply list_elem_of_fmap in Hin as [r' [Heq Hr']].
        destruct (Hks r' Hr') as [k' [Hk' Hnot]]. rewrite Hk' in Heq.
        injection Heq as ->. set_solver.
      + intros r' Hr'. apply elem_of_cons in Hr' as [->|Hr']; [eauto|].
        destruct (Hks r' Hr') as [k' [? ?]]. exists k'. set_solver.
  Qed.

  (** The first row carrying a key tuple not in [seen] is kept. *)
Lemma dedup_loop_first (seen : gset (list string)) (pre post out : list row)
      (a : row) (k : list string) :
    dedup_loop columns unique_columns seen (pre ++ a :: post) = Ok out ->
    uk a = Ok k -> k ∉ seen ->
    (forall r, r ∈ pre -> uk r <> Ok k) ->
    a ∈ out.
  Proof.
    revert seen out. induction pre as [|r pre IH]; intros seen out H Ha Hk Hpre;
      simpl in H; unfold_bind.
    - rewrite Ha in H. rewrite decide_False in H by done.
      destruct (dedup_loop _ _ _ post); [|discriminate]. injection H as <-. set_solver.
    - destruct (uk r) as [k'|] eqn:Hk'; [|discriminate].
      assert (k' <> k) by (intros ->; apply (Hpre r); [set_solver|done]).
      destruct (decide (k' ∈ seen)).
      + eapply IH; eauto. intros r' ?. apply Hpre. set_solver.
      + destruct (dedup_loop _ _ _ (pre ++ a :: post)) as [rs|] eqn:E; [|discriminate].
        injection H as <-. apply elem_of_cons; right.
        eapply IH; [exact E|done| |]; [set_solver|].
        intros r' ?. apply Hpre. set_solver.
  Qed.
End Dedup.

(** Two rows of a list whose key tuples are distinct and equal are equal. *)
Lemma NoDup_fmap_same {A B} (f : A -> B) (l : list A) (x y : A) :
  NoDup (f <$> l) -> x ∈ l -> y ∈ l -> f x = f y -> x = y.
Proof.
  intros Hnd Hx Hy Hf.
  apply list_elem_of_lookup in Hx as [i Hi], Hy as [j Hj].
  assert (i = j) as ->.
  { eapply NoDup_lookup; [exact Hnd| |].
    - rewrite list_lookup_fmap, Hi. reflexivity.
    - rewrite list_lookup_fmap, Hj. simpl. rewrite Hf. reflexivity. }
  congruence.
Qed.

Lemma app_unique_columns_listed :
  Forall (fun c => c ∈ app_columns) unique_columns_apps.
Proof. repeat constructor. Qed.

Lemma app_keys_exist (rows : list row) :
  Forall (row_ok app_columns) rows ->
  Forall (fun r => exists k, unique_key app_columns unique_columns_apps r = Ok k) rows.
Proof.
  intros H. eapply Forall_impl; [exact H|]. intros r Hr.
  apply unique_key_exists; [apply app_unique_columns_listed|exact Hr].
Qed.

(** X1: the batch the application-table write passes to execute_values
    never carries two rows with one key tuple. *)
Lemma app_batch_keys_distinct (data out : list row) :
  app_batch data = Ok out ->
  NoDup (unique_key app_columns unique_columns_apps <$> out).
Proof. intros H. apply (dedup_loop_distinct _ _ _ _ _ H). Qed.

Lemma app_batch_keys_distinct_witness :
  app_batch [header; app1; app2] = Ok [app1] /\
  NoDup (unique_key app_columns unique_columns_apps <$> [app1]).
Proof.
  split; [vm_compute; reflexivity|].
  apply (app_batch_keys_distinct [header; app1; app2] [app1]). vm_compute. reflexivity.
Defined.

(** ** C1 *)

(** C1 (code_bug): the employee import has no duplicate filter.  The
    worksheet [header; alice; alice2], whose two data rows share the email
    a@x.com, reaches [execute_values] unchanged, and the upsert statement
    is then rejected by the server ("cannot affect row a second time"):
    the duplicate is reported as an error instead of being discarded. *)
Theorem C1_emp_duplicates_reach_write :
  emp_batch [header; alice; alice2] = Ok [alice; alice2] /\
  unique_key emp_columns unique_columns_emp alice = Ok ["a@x.com"] /\
  unique_key emp_columns unique_columns_emp alice2 = Ok ["a@x.com"] /\
  fst (import_emp_data_to_postgres (fun _ => reliable_db) [header; alice; alice2]
         db_config_example ∅)
  = Raise (DbError AffectRowTwice).
Proof. vm_compute. repeat split. Qed.

(** ** C2 *)

(** C2 (counterexample): rows app2 and app3 share the key "Portal" and
    app2 comes first, but an earlier row app1 has the same key, so the
    output holds app1 and not app2. *)
Lemma C2_counterexample :
  unique_key app_columns unique_columns_apps app2 = Ok ["Portal"] /\
  unique_key app_columns unique_columns_apps app3 = Ok ["Portal"] /\
  app_batch [header; app1; app2; app3] = Ok [app1] /\
  app2 ∉ [app1].
Proof. vm_compute. split; [reflexivity|]. split; [reflexivity|]. split; [reflexivity|].
  intros H. apply list_elem_of_singleton in H. discriminate. Qed.

(** C2 (amended): for worksheet rows meeting the input constraint, if
    [a] is the first data row with key tuple [k] and [b] a later one with
    the same key, the filtered batch contains [a] and no other row with
    key [k]; in particular [b] is absent unless it equals [a]. *)
Theorem C2_first_occurrence_kept (data : list row) (i j : nat) (a b : row)
    (k : list string) :
  Forall (row_ok app_columns) (py_slice1 data) ->
  py_slice1 data !! i = Some a -> py_slice1 data !! j = Some b -> i < j ->
  unique_key app_columns unique_columns_apps a = Ok k ->
  unique_key app_columns unique_columns_apps b = Ok k ->
  (forall i' r, i' < i -> py_slice1 data !! i' = Some r ->
     unique_key app_columns unique_columns_apps r <> Ok k) ->
  exists out, app_batch data = Ok out /\ a ∈ out /\
    (forall r, r ∈ out -> unique_key app_columns unique_columns_apps r = Ok k -> r = a) /\
    (b ∈ out -> b = a).
Proof.
  intros Hok Ha Hb Hij Hka Hkb Hfirst.
  destruct (dedup_loop_ok app_columns unique_columns_apps ∅ (py_slice1 data))
    as [out Hout]; [by apply app_keys_exist|].
  exists out. unfold app_batch. rewrite Hout.
  assert (a ∈ out) as Hain.
  { rewrite <- (take_drop_middle _ _ _ Ha) in Hout.
    eapply dedup_loop_first; [exact Hout|exact Hka|set_solver|].
    intros r Hr. apply elem_of_take in Hr as [i' [Hi' Hlt]]. eauto. }
  destruct (dedup_loop_distinct _ _ _ _ _ Hout) as [Hnd _].
  assert (Hsame : forall r, r ∈ out ->
            unique_key app_columns unique_columns_apps r = Ok k -> r = a).
  { intros r Hr Hkr. eapply NoDup_fmap_same; [exact Hnd|exact Hr|exact Hain|congruence]. }
  repeat split; auto.
Qed.

Lemma C2_first_occurrence_kept_witness :
  exists out, app_batch [header; app1; app2] = Ok out /\ app1 ∈ out /\
    (forall r, r ∈ out -> unique_key app_columns unique_columns_apps r = Ok ["Portal"] ->
       r = app1) /\ (app2 ∈ out -> app2 = app1).
Proof.
  apply (C2_first_occurrence_kept [header; app1; app2] 0 1 app1 app2 ["Portal"]).
  - repeat constructor; unfold row_ok; simpl; lia.
  - reflexivity.
  - reflexivity.
  - lia.
  - reflexivity.
  - reflexivity.
  - intros i' r Hi'. lia.
Defined.

(** ** C3 *)

(** C3: the header row never reaches the write.  The employee batch is
    exactly rows 2..n, the application batch is a sublist of rows 2..n,
    and a worksheet [hdr; r1] (r1 meeting the input constraint) yields the
    single record [r1] on both paths. *)
Theorem C3_header_excluded :
  (forall data, emp_batch data = Ok (py_slice1 data)) /\
  (forall data out, app_batch data = Ok out -> sublist out (py_slice1 data)) /\
  (forall (hdr r1 : row), row_ok app_columns r1 ->
     app_batch [hdr; r1] = Ok [r1] /\ emp_batch [hdr; r1] = Ok [r1]).
Proof.
  split; [reflexivity|]. split.
  - intros data out H. eapply dedup_loop_sublist. exact H.
  - intros hdr r1 Hr1. split; [|reflexivity].
    destruct (unique_key_exists app_columns unique_columns_apps r1) as [k Hk];
      [apply app_unique_columns_listed|exact Hr1|].
    unfold app_batch, py_slice1. change (drop 1 [hdr; r1]) with [r1].
    cbn [dedup_loop]. unfold_bind. rewrite Hk.
    rewrite decide_False by set_solver. reflexivity.
Qed.

Lemma C3_header_excluded_witness :
  app_batch [header; app1] = Ok [app1] /\ emp_batch [header; app1] = Ok [app1].
Proof.
  apply (proj2 (proj2 C3_header_excluded) header app1). unfold row_ok. simpl. lia.
Defined.

(* ------------------------------------------------------------------ *)
(** ** The upsert statement *)

Lemma lookup_new_row (columns : list string) (r : row) (c : string) :
  new_row columns r !! c = excluded columns r c.
Proof.
  unfold new_row, excluded. revert r.
  induction columns as [|c0 columns IH]; intros r.
  - simpl. apply lookup_empty.
  - destruct r as [|v r].
    + cbn [zip list_to_map foldr]. rewrite lookup_empty. cbn [py_index].
      destruct (decide (c0 = c)); [reflexivity|]. unfold_bind.
      destruct (py_index columns c); reflexivity.
    + cbn [zip]. rewrite list_to_map_cons, lookup_insert. cbn [py_index].
      destruct (decide (c0 = c)); [reflexivity|]. rewrite IH. unfold_bind.
      destruct (py_index columns c); reflexivity.
Qed.

Lemma excluded_cases (columns : list string) (r : row) (c : string) :
  length r = length columns ->
  ((c ∈ columns) /\ exists v, excluded columns r c = Some v) \/
  ((c ∉ columns) /\ excluded columns r c = None).
Proof.
  intros Hlen. destruct (decide (c ∈ columns)) as [Hin|Hout].
  - left. split; [done|]. destruct (py_index_found _ _ Hin) as [i Hi].
    pose proof (py_index_lt _ _ _ Hi). unfold excluded. rewrite Hi.
    apply lookup_lt_is_Some_2. lia.
  - right. split; [done|]. unfold excluded.
    destruct (py_index columns c) as [i|] eqn:Hi; [|reflexivity].
    exfalso. apply Hout. clear -Hi. revert i Hi.
    induction columns as [|c0 columns IH]; intros i Hi; simpl in Hi; [discriminate|].
    destruct (decide (c0 = c)) as [->|]; [set_solver|]. unfold_bind.
    destruct (py_index columns c) eqn:E; [|discriminate]. apply elem_of_cons. right. eauto.
Qed.

Lemma elem_of_update_columns (columns unique_columns : list string) (c : string) :
  c ∈ update_columns columns unique_columns <-> c ∈ columns /\ c ∉ unique_columns.
Proof. unfold update_columns. rewrite list_elem_of_filter. tauto. Qed.

Lemma lookup_set_excluded (columns unique_columns : list string) (r : row)
    (old : drow) (c : string) :
  set_excluded columns unique_columns r old !! c =
  match excluded columns r c with
  | Some v => if decide (c ∈ update_columns columns unique_columns) then Some v else old !! c
  | None => old !! c
  end.
Proof.
  unfold set_excluded. generalize (update_columns columns unique_columns) as l.
  intros l. revert old. induction l as [|c0 l IH]; intros old; simpl.
  - destruct (excluded columns r c); reflexivity.
  - rewrite IH. destruct (decide (c0 = c)) as [<-|Hne].
    + destruct (excluded columns r c0); [|reflexivity].
      rewrite lookup_insert_eq.
      destruct (decide (c0 ∈ l)); destruct (decide (c0 ∈ c0 :: l));
        try reflexivity; set_solver.
    + assert (Hins : forall v, <[c0:=v]> old !! c = old !! c)
        by (intros v; apply lookup_insert_ne; done).
      destruct (excluded columns r c0); destruct (excluded columns r c);
        try rewrite Hins; try reflexivity;
        destruct (decide (c ∈ l)); destruct (decide (c ∈ c0 :: l));
        try reflexivity; set_solver.
Qed.

(** Two VALUES rows with one conflict-target tuple agree on its columns. *)
Lemma excluded_key_agree (columns unique_columns : list string) (r s : row)
    (k : list string) (c : string) :
  unique_key columns unique_columns r = Ok k ->
  unique_key columns unique_columns s = Ok k ->
  c ∈ unique_columns -> excluded columns r c = excluded columns s c.
Proof.
  revert k. induction unique_columns as [|c0 ucols IH]; intros k Hr Hs Hc;
    [set_solver|].
  simpl in Hr, Hs. unfold_bind. unfold excluded.
  destruct (py_index columns c0) as [i|] eqn:Hi; [|discriminate].
  unfold py_getitem in Hr, Hs.
  destruct (r !! i) as [v|] eqn:Hv; [|discriminate].
  destruct (s !! i) as [w|] eqn:Hw; [|discriminate].
  destruct (unique_key columns ucols r) as [vs|] eqn:Hvs; [|discriminate].
  destruct (unique_key columns ucols s) as [ws|] eqn:Hws; [|discriminate].
  injection Hr as <-. injection Hs as -> ->.
  apply elem_of_cons in Hc as [->|Hc].
  - rewrite Hi, Hv, Hw. reflexivity.
  - apply (IH vs); auto.
Qed.

(** A stored row whose conflict-target values are [k] agrees with every
    VALUES row with tuple [k] on those columns. *)
Lemma row_key_agree (columns unique_columns : list string) (old : drow) (r : row)
    (k : list string) (c : string) :
  row_key unique_columns old = Some k ->
  unique_key columns unique_columns r = Ok k ->
  c ∈ unique_columns -> old !! c = excluded columns r c.
Proof.
  unfold row_key. revert k. induction unique_columns as [|c0 ucols IH];
    intros k Hold Hr Hc; [set_solver|].
  simpl in Hold, Hr. unfold_bind. unfold excluded.
  destruct (old !! c0) as [v|] eqn:Hv; [|discriminate]. simpl in Hold.
  destruct (mapM (fun c => old !! c) ucols) as [vs|] eqn:Hvs; [|discriminate].
  injection Hold as <-.
  destruct (py_index columns c0) as [i|] eqn:Hi; [|discriminate].
  unfold py_getitem in Hr. destruct (r !! i) as [w|] eqn:Hw; [|discriminate].
  destruct (unique_key columns ucols r) as [ws|] eqn:Hws; [|discriminate].
  injection Hr as -> ->.
  apply elem_of_cons in Hc as [->|Hc].
  - rewrite Hi, Hw. exact Hv.
  - apply (IH vs); auto.
Qed.

Section Batch.
Variables columns unique_columns : list string.
Local Abbreviation uk := (unique_key columns unique_columns).
Local Abbreviation U := (upsert_row columns unique_columns).
Local Abbreviation after := (row_after columns unique_columns).
Local Abbreviation wf := (keyed_ok columns unique_columns).

  (** A later VALUES row with the same tuple overrides an earlier one. *)
Lemma row_after_absorb (r s : row) (k : list string) (o : option drow) :
    uk r = Ok k -> uk s = Ok k ->
    length r = length columns -> length s = length columns ->
    after r (Some (after s o)) = after r o.
  Proof.
    intros Hr Hs Hlr Hls. apply map_eq. intros c. destruct o as [old|]; simpl.
    - rewrite !lookup_set_excluded.
      destruct (excluded_cases columns r c Hlr) as [[Hin [v Hv]]|[Hout Hv]];
        destruct (excluded_cases columns s c Hls) as [[Hin' [w Hw]]|[Hout' Hw]];
        rewrite ?Hv, ?Hw; try (exfalso; set_solver); repeat case_decide; reflexivity.
    - rewrite lookup_set_excluded, !lookup_new_row.
      destruct (excluded_cases columns r c Hlr) as [[Hin [v Hv]]|[Hout Hv]];
        rewrite Hv; [|destruct (excluded_cases columns s c Hls) as [[? _]|[_ Hw]];
                      [set_solver|rewrite Hw; reflexivity]].
      case_decide as Hupd; [reflexivity|].
      rewrite elem_of_update_columns in Hupd.
      assert (c ∈ unique_columns) as Hk by (destruct (decide (c ∈ unique_columns)); tauto).
      rewrite (excluded_key_agree columns unique_columns s r k c Hs Hr Hk). exact Hv.
  Qed.

Lemma lookup_fold_upsert (kps : list (list string * row)) (t : table) (k : list string) :
    fold_left U kps t !! k =
    fold_left (fun o kr => if decide (kr.1 = k) then Some (after kr.2 o) else o) kps (t !! k).
  Proof.
    revert t. induction kps as [|[k' r] kps IH]; intros t; simpl; [reflexivity|].
    rewrite IH. f_equal. unfold upsert_row.
    destruct (t !! k') as [old|] eqn:E; rewrite lookup_insert;
      destruct (decide (k' = k)) as [<-|]; rewrite ?E; reflexivity.
  Qed.

Lemma last_with_key_elem (k : list string) (kps : list (list string * row)) (r : row) :
    last_with_key k kps = Some r -> (k, r) ∈ kps.
  Proof.
    induction kps as [|[k' r'] kps IH]; simpl; [discriminate|].
    destruct (last_with_key k kps) eqn:E.
    - intros [= ->]. apply elem_of_cons. right. auto.
    - case_decide; [|discriminate]. intros [= ->]. subst. apply elem_of_cons. left. done.
  Qed.

Lemma last_with_key_only (k : list string) (kps : list (list string * row)) (r : row) :
    (k, r) ∈ kps -> (forall s, (k, s) ∈ kps -> s = r) -> last_with_key k kps = Some r.
  Proof.
    induction kps as [|[k' r'] kps IH]; intros Hin Honly; [set_solver|]. simpl.
    destruct (decide ((k, r) ∈ kps)) as [Hin'|Hnot].
    - rewrite IH; [reflexivity|done|]. intros s Hs. apply Honly. set_solver.
    - apply elem_of_cons in Hin as [[= <- <-]|]; [|done].
      destruct (last_with_key k kps) as [r0|] eqn:E.
      + apply last_with_key_elem in E. rewrite (Honly r0) in E by set_solver. done.
      + rewrite decide_True by done. reflexivity.
  Qed.

  (** The row under [k] after a batch depends only on the last VALUES row
      with tuple [k]. *)
Lemma fold_after_last (kps : list (list string * row)) (k : list string)
      (o : option drow) :
    Forall wf kps ->
    fold_left (fun o kr => if decide (kr.1 = k) then Some (after kr.2 o) else o) kps o =
    match last_with_key k kps with None => o | Some r => Some (after r o) end.
  Proof.
    intros Hwf. revert o. induction Hwf as [|[k' r] kps [Hkr Hlr] Hwf IH]; intros o;
      simpl; [reflexivity|].
    rewrite IH. destruct (last_with_key k kps) as [r'|] eqn:E.
    - destruct (decide (k' = k)) as [<-|]; [|reflexivity]. f_equal.
      apply last_with_key_elem in E.
      rewrite Forall_forall in Hwf. destruct (Hwf _ E) as [Hkr' Hlr'].
      eapply row_after_absorb; eauto.
    - destruct (decide (k' = k)); reflexivity.
  Qed.

Lemma fold_upsert_idempotent (kps : list (list string * row)) (t : table) :
    Forall wf kps ->
    fold_left U kps (fold_left U kps t) = fold_left U kps t.
  Proof.
    intros Hwf. apply map_eq. intros k.
    rewrite !lookup_fold_upsert, !fold_after_last by done.
    destruct (last_with_key k kps) as [r|] eqn:E; [|reflexivity].
    f_equal. apply last_with_key_elem in E.
    rewrite Forall_forall in Hwf. destruct (Hwf _ E) as [Hkr Hlr].
    eapply row_after_absorb; eauto.
  Qed.

Lemma mapM_keyed (page : list row) (kps : list (list string * row)) :
    mapM (fun r => k ← uk r; Ok (k, r)) page = Ok kps ->
    kps.*2 = page /\ Forall (fun kr => uk kr.2 = Ok kr.1) kps.
  Proof.
    revert kps. induction page as [|r page IH]; intros kps H; simpl in H; unfold_bind.
    - injection H as <-. split; [reflexivity|constructor].
    - unfold mret, result_ret in H.
      destruct (uk r) as [k|] eqn:Hk; [|discriminate].
      destruct (mapM _ page) as [kps'|] eqn:E; [|discriminate].
      injection H as <-. destruct (IH _ eq_refl) as [H1 H2].
      split; [change (r :: kps'.*2 = r :: page); rewrite H1; reflexivity|constructor; auto].
  Qed.

Lemma check_page_ok (page : list row) (kps : list (list string * row)) :
    check_page columns unique_columns page = Ok kps -> kps.*2 = page /\ Forall wf kps.
  Proof.
    unfold check_page. case_decide as Hlen; [|discriminate].
    destruct (mapM _ page) as [kps'|] eqn:E; [|discriminate].
    case_decide; [|discriminate]. intros [= <-].
    destruct (mapM_keyed _ _ E) as [H1 H2]. split; [done|].
    rewrite <- H1 in Hlen. rewrite Forall_fmap in Hlen.
    eapply Forall_and; split; [exact H2|exact Hlen].
  Qed.

Lemma mogrify_error (n : nat) (page : list row) (e : exc) :
    mapM (mogrify n) page = Raise e -> e = IndexError \/ e = TypeError.
  Proof.
    induction page as [|r page IH]; simpl; unfold_bind; [discriminate|].
    unfold mogrify at 1. case_decide; [intros [= <-]; auto|].
    case_decide; [intros [= <-]; auto|].
    destruct (mapM (mogrify n) page); [discriminate|]. intros [= <-]. auto.
  Qed.

Lemma pages_check_ok (env : db_env) (n i : nat) (pages : list (list row))
      (kps : list (list string * row)) :
    pages_check columns unique_columns env n i pages = Ok kps ->
    kps.*2 = concat pages /\ Forall wf kps.
  Proof.
    revert i kps. induction pages as [|page pages IH]; intros i kps H; simpl in H.
    - injection H as <-. split; [reflexivity|constructor].
    - unfold_bind. destruct (mapM (mogrify n) page); [|discriminate].
      destruct (statement_ok env i); [|discriminate].
      destruct (check_page _ _ page) as [kp|] eqn:E1; [|discriminate].
      destruct (pages_check _ _ env n (S i) pages) as [kp'|] eqn:E2; [|discriminate].
      injection H as <-. destruct (check_page_ok _ _ E1) as [A1 B1].
      destruct (IH _ _ E2) as [A2 B2]. split.
      + rewrite fmap_app, A1, A2. reflexivity.
      + apply Forall_app. auto.
  Qed.

  (** A failing batch raises a database error, or the client-side
      IndexError or TypeError of [mogrify]. *)
Lemma pages_check_error (env : db_env) (n i : nat) (pages : list (list row)) (e : exc) :
    pages_check columns unique_columns env n i pages = Raise e ->
    (exists d, e = DbError d) \/ e = IndexError \/ e = TypeError.
  Proof.
    revert i. induction pages as [|page pages IH]; intros i H; simpl in H; [discriminate|].
    unfold_bind. destruct (mapM (mogrify n) page) eqn:Em;
      [|injection H as <-; right; apply (mogrify_error n page); exact Em].
    destruct (statement_ok env i); [|injection H as <-; left; eauto].
    destruct (check_page _ _ page) as [kp|] eqn:E1.
    - destruct (pages_check _ _ env n (S i) pages) eqn:E2; [discriminate|].
      injection H as <-. eauto.
    - injection H as <-. left. clear Em. revert E1. unfold check_page.
      case_decide; [|intros [= <-]; eauto].
      destruct (mapM _ page); [case_decide; [discriminate|]|]; intros [= <-]; eauto.
  Qed.

  (** The statements of one call succeed or fail independently of the
      table; on success the table is the fold of all VALUES rows. *)
Lemma exec_pages_spec (env : db_env) (n i : nat) (pages : list (list row)) (t : table) :
    exec_pages columns unique_columns env n i pages t =
    match pages_check columns unique_columns env n i pages with
    | Ok kps => Ok (fold_left U kps t)
    | Raise e => Raise e
    end.
  Proof.
    revert i t. induction pages as [|page pages IH]; intros i t; simpl; [reflexivity|].
    unfold_bind. destruct (mapM (mogrify n) page); [|reflexivity].
    destruct (statement_ok env i); [|reflexivity]. unfold exec_statement. unfold_bind.
    destruct (check_page _ _ page) as [kp|]; [|reflexivity].
    rewrite IH. destruct (pages_check _ _ env n (S i) pages); [|reflexivity].
    rewrite fold_left_app. reflexivity.
  Qed.
End Batch.

Lemma concat_paginate {A} (n : nat) (l : list A) :
  0 < n -> concat (paginate n l) = l.
Proof.
  intros Hn. unfold paginate. remember (length l) as fuel eqn:E.
  assert (Hle : length l <= fuel) by lia. clear E. revert l Hle.
  induction fuel as [|fuel IH]; intros l Hle.
  - destruct l; [reflexivity|simpl in Hle; lia].
  - destruct l as [|x l']; [reflexivity|]. cbn [paginate_fuel concat].
    rewrite IH; [apply take_drop|]. rewrite length_drop. simpl in *. lia.
Qed.

(* ------------------------------------------------------------------ *)
(** ** The import functions *)

Lemma import_to_postgres_spec (columns unique_columns : list string)
    (prepare : list row -> result (list row)) (env : db_env) (data : list row) (t : table) :
  import_to_postgres columns unique_columns prepare env data t =
  if connect_ok env then
    match prepare data with
    | Raise e => (Raise e, t)
    | Ok values =>
        match pages_check columns unique_columns env
                (template_arity (paginate 100 values)) 0 (paginate 100 values) with
        | Raise e => (Raise e, t)
        | Ok kps =>
            match commit_result env with
            | Committed => (Ok (), fold_left (upsert_row columns unique_columns) kps t)
            | CommitRolledBack => (Raise (DbError CommitFailed), t)
            | CommitReplyLost =>
                (Raise (DbError CommitFailed), fold_left (upsert_row columns unique_columns) kps t)
            end
        end
    end
  else (Raise (DbError ConnectRefused), t).
Proof.
  unfold import_to_postgres, execute_values.
  destruct (connect_ok env); [|reflexivity].
  destruct (prepare data) as [values|]; [|reflexivity].
  rewrite exec_pages_spec.
  destruct (pages_check _ _ env _ 0 (paginate 100 values)); reflexivity.
Qed.

Lemma import_to_postgres_idempotent (columns unique_columns : list string)
    (prepare : list row -> result (list row)) (env : db_env) (data : list row) (t : table) :
  (import_to_postgres columns unique_columns prepare env data
     (import_to_postgres columns unique_columns prepare env data t).2).2
  = (import_to_postgres columns unique_columns prepare env data t).2.
Proof.
  rewrite !import_to_postgres_spec.
  destruct (connect_ok env); [|reflexivity].
  destruct (prepare data) as [values|]; [|reflexivity].
  destruct (pages_check _ _ env _ 0 (paginate 100 values)) as [kps|] eqn:E; [|reflexivity].
  destruct (commit_result env); simpl; [| reflexivity |];
    apply fold_upsert_idempotent; apply (pages_check_ok _ _ _ _ _ _ _ E).
Qed.

(** An import call either commits its whole batch or nothing.  A call that
    returns has committed the batch; a call that raises has committed
    nothing, or (lost commit reply) the whole batch; once the batch is
    prepared, it raises a database error or the client-side IndexError or
    TypeError of [execute_values]. *)
Lemma import_to_postgres_atomic (columns unique_columns : list string)
    (prepare : list row -> result (list row)) (env : db_env) (data : list row)
    (t t' : table) (res : result unit) :
  import_to_postgres columns unique_columns prepare env data t = (res, t') ->
  (res = Ok () /\ exists batch kps, prepare data = Ok batch /\ kps.*2 = batch /\
     Forall (keyed_ok columns unique_columns) kps /\
     t' = fold_left (upsert_row columns unique_columns) kps t) \/
  (exists e, res = Raise e /\
     (t' = t \/ exists batch kps, prepare data = Ok batch /\ kps.*2 = batch /\
        Forall (keyed_ok columns unique_columns) kps /\
        t' = fold_left (upsert_row columns unique_columns) kps t) /\
     (forall batch, prepare data = Ok batch ->
        (exists d, e = DbError d) \/ e = IndexError \/ e = TypeError) /\
     (forall e0, prepare data = Raise e0 -> connect_ok env = true -> e = e0)).
Proof.
  rewrite import_to_postgres_spec.
  destruct (connect_ok env);
    [|intros [= <- <-]; right; exists (DbError ConnectRefused);
      split; [done|]; split; [left; done|]; split; [eauto|discriminate]].
  destruct (prepare data) as [values|e];
    [|intros [= <- <-]; right; exists e; split; [done|]; split; [auto|];
      split; [intros batch [=]|intros e0 [= ->]; done]].
  destruct (pages_check _ _ env _ 0 (paginate 100 values)) as [kps|e] eqn:E.
  - destruct (pages_check_ok _ _ _ _ _ _ _ E) as [H1 H2].
    rewrite concat_paginate in H1 by lia.
    destruct (commit_result env); intros [= <- <-].
    + left. split; [done|]. exists values, kps. auto.
    + right. exists (DbError CommitFailed). split; [done|]. split; [left; done|].
      split; [eauto|intros e0 [=]].
    + right. exists (DbError CommitFailed). split; [done|]. split; [right; eauto 10|].
      split; [eauto|intros e0 [=]].
  - intros [= <- <-]. right. exists e. split; [done|]. split; [auto|].
    split; [|intros e0 [=]]. intros batch _. eapply pages_check_error. exact E.
Qed.

(** A batch holding a row of the wrong length never reaches [commit]. *)
Lemma import_wrong_length (columns unique_columns : list string)
    (prepare : list row -> result (list row)) (env : db_env)
    (data batch : list row) (t t' : table) (res : result unit) (r : row) :
  import_to_postgres columns unique_columns prepare env data t = (res, t') ->
  prepare data = Ok batch -> r ∈ batch -> length r <> length columns ->
  (exists e, res = Raise e) /\ t' = t.
Proof.
  intros Himp Hprep Hr Hlen. rewrite import_to_postgres_spec, Hprep in Himp.
  destruct (connect_ok env); [|injection Himp as <- <-; eauto].
  destruct (pages_check _ _ env _ 0 (paginate 100 batch)) as [kps|e] eqn:E;
    [|injection Himp as <- <-; eauto].
  exfalso. destruct (pages_check_ok _ _ _ _ _ _ _ E) as [H1 H2].
  rewrite concat_paginate in H1 by lia. subst batch.
  apply list_elem_of_fmap in Hr as [[k r'] [-> Hin]].
  rewrite Forall_forall in H2. destruct (H2 _ Hin) as [_ Hl]. exact (Hlen Hl).
Qed.

Lemma unique_key_app (r : row) :
  unique_key app_columns unique_columns_apps r =
  match r with [] => Raise IndexError | v :: _ => Ok [v] end.
Proof. destruct r; reflexivity. Qed.


(** ** C4 *)

(** C4: running either import twice with the same worksheet data, the same
    connection settings and the same server behaviour leaves the table as
    running it once. *)
Theorem C4_upsert_idempotent (connect : list (string * pyjson) -> db_env)
    (data : list row) (db_config : list (string * pyjson)) (t : table) :
  (import_emp_data_to_postgres connect data db_config
     (import_emp_data_to_postgres connect data db_config t).2).2
  = (import_emp_data_to_postgres connect data db_config t).2 /\
  (import_app_data_to_postgres connect data db_config
     (import_app_data_to_postgres connect data db_config t).2).2
  = (import_app_data_to_postgres connect data db_config t).2.
Proof. split; apply import_to_postgres_idempotent. Qed.

(** ** C5 *)

(** C5: both import functions are [import_to_postgres] with their column
    lists.  After a committed import, for a VALUES row [r] that is the only
    row of the batch with conflict-target tuple [k]: if a row [old] with
    those conflict-target values was stored, the stored row now holds the
    incoming value in every listed column and keeps every other column of
    [old]; if none was stored, a new row with exactly the incoming values
    was created.  [excluded columns r c] is the cell of [r] at the
    position of [c] in [columns]. *)
Theorem C5_upsert_overwrites (columns unique_columns : list string)
    (prepare : list row -> result (list row)) (env : db_env)
    (data batch : list row) (t t' : table) (r : row) (k : list string) :
  import_to_postgres columns unique_columns prepare env data t = (Ok (), t') ->
  prepare data = Ok batch -> r ∈ batch ->
  unique_key columns unique_columns r = Ok k ->
  (forall s, s ∈ batch -> unique_key columns unique_columns s = Ok k -> s = r) ->
  exists row', t' !! k = Some row' /\
    (forall old, t !! k = Some old -> row_key unique_columns old = Some k ->
       (forall c, c ∈ columns -> row' !! c = excluded columns r c) /\
       (forall c, c ∉ columns -> row' !! c = old !! c)) /\
    (t !! k = None -> row' = new_row columns r).
Proof.
  intros Himp Hprep Hr Hkr Honly.
  destruct (import_to_postgres_atomic _ _ _ _ _ _ _ _ Himp)
    as [[_ [batch' [kps [Hprep' [Hkps [Hwf ->]]]]]]|[e [[=] _]]].
  rewrite Hprep in Hprep'. injection Hprep' as <-.
  rewrite Forall_forall in Hwf.
  assert (Hin : (k, r) ∈ kps).
  { rewrite <- Hkps in Hr. apply list_elem_of_fmap in Hr as [[k' r'] [-> Hkr']].
    destruct (Hwf _ Hkr') as [Hk' _]. cbn [fst snd] in Hk', Hkr |- *. rewrite Hkr in Hk'.
    injection Hk' as ->. exact Hkr'. }
  assert (Hlast : last_with_key k kps = Some r).
  { apply last_with_key_only; [exact Hin|]. intros s Hs.
    apply Honly; [rewrite <- Hkps; apply list_elem_of_fmap; exists (k, s); auto|].
    apply (Hwf _ Hs). }
  destruct (Hwf _ Hin) as [_ Hlen]. cbn [fst snd] in Hlen.
  exists (row_after columns unique_columns r (t !! k)).
  rewrite lookup_fold_upsert, fold_after_last, Hlast by (apply Forall_forall; exact Hwf).
  split; [reflexivity|]. split.
  - intros old Hold Hkey. rewrite Hold. simpl. split.
    + intros c Hc. rewrite lookup_set_excluded.
      destruct (excluded_cases columns r c Hlen) as [[_ [v Hv]]|[? _]]; [|set_solver].
      rewrite Hv. case_decide as Hupd; [reflexivity|].
      rewrite elem_of_update_columns in Hupd.
      rewrite <- Hv. apply (row_key_agree columns unique_columns old r k c Hkey Hkr).
      destruct (decide (c ∈ unique_columns)); tauto.
    + intros c Hc. rewrite lookup_set_excluded.
      destruct (excluded_cases columns r c Hlen) as [[? _]|[_ Hv]]; [set_solver|].
      rewrite Hv. reflexivity.
  - intros Hnone. rewrite Hnone. reflexivity.
Qed.

Lemma C5_upsert_overwrites_witness :
  exists row', (import_app_data_to_postgres (fun _ => reliable_db) [header; app1]
                  db_config_example {[["Portal"] := stored_portal]}).2 !! ["Portal"]
               = Some row' /\
    (forall old, ({[["Portal"] := stored_portal]} : table) !! ["Portal"] = Some old ->
       row_key unique_columns_apps old = Some ["Portal"] ->
       (forall c, c ∈ app_columns -> row' !! c = excluded app_columns app1 c) /\
       (forall c, c ∉ app_columns -> row' !! c = old !! c)) /\
    (({[["Portal"] := stored_portal]} : table) !! ["Portal"] = None ->
       row' = new_row app_columns app1).
Proof.
  apply (C5_upsert_overwrites app_columns unique_columns_apps app_batch reliable_db
           [header; app1] [app1] {[["Portal"] := stored_portal]}
           (import_app_data_to_postgres (fun _ => reliable_db) [header; app1]
              db_config_example {[["Portal"] := stored_portal]}).2 app1 ["Portal"]).
  - vm_decide.
  - vm_compute. reflexivity.
  - apply list_elem_of_singleton. reflexivity.
  - vm_compute. reflexivity.
  - intros s Hs _. apply list_elem_of_singleton in Hs. exact Hs.
Defined.

(** ** C8 *)




(** ** The handler *)

Lemma pbind_ok_inv {S A B} (m : PyM S A) (k : A -> PyM S B) (s s' : S) (b : B) :
  pbind m k s = (Ok b, s') -> exists a s1, m s = (Ok a, s1) /\ k a s1 = (Ok b, s').
Proof.
  unfold pbind. destruct (m s) as [[a|e] s1]; [eauto|discriminate].
Qed.

Lemma handler_body_ok (w : world) (hs hs' : handler_state) (resp : response) :
  handler_body w hs = (Ok resp, hs') ->
  resp = {| statusCode := 200; body := JObj [("message", JStr "Success")] |}.
Proof.
  unfold handler_body. cbv zeta. intros H.
  repeat (apply pbind_ok_inv in H as (? & ? & _ & H)).
  unfold pret in H. congruence.
Qed.

(** ** C9 *)

(** C9: whatever the secrets, the sheets, the file system and the database
    do, lambda_handler returns, without raising, either the success response
    (status 200, body [{'message': 'Success'}]) or the failure response
    (status 500, body [{'error': m}] for the text [m] of the exception). *)
Theorem C9_two_result_shapes (w : world) (hs : handler_state) :
  (lambda_handler w hs).1 = {| statusCode := 200; body := JObj [("message", JStr "Success")] |} \/
  exists m, (lambda_handler w hs).1 = {| statusCode := 500; body := JObj [("error", JStr m)] |}.
Proof.
  unfold lambda_handler.
  destruct (handler_body w hs) as [[resp|e] hs'] eqn:E; simpl.
  - left. exact (handler_body_ok w hs hs' resp E).
  - right. eauto.
Qed.

(** ** Secrets *)

Lemma scan_errors (lim : py_limits) (fuel : nat) :
  (forall d s e, scan_value lim fuel d s = Raise e -> json_exc e) /\
  (forall d s e, scan_members lim fuel d s = Raise e -> json_exc e) /\
  (forall d s e, scan_elems lim fuel d s = Raise e -> json_exc e).
Proof.
  induction fuel as [|f [IHv [IHm IHe]]].
  - split; [|split]; intros d s e [= <-]; left; reflexivity.
  - split; [|split]; intros d s e; simpl; unfold mbind, result_bind, py_number;
      repeat case_match; intros Hr; simplify_eq;
      try eauto.
  all: unfold json_exc;
    first [left; reflexivity | right; left; reflexivity | right; right; reflexivity].
Qed.

Lemma scan_value_brace (lim : py_limits) (n d : nat) (r rest : string) (v : pyjson) :
  scan_value lim n d (String "{" r) = Ok (v, rest) -> exists kvs, v = JObj kvs.
Proof.
  destruct n as [|n]; simpl; [discriminate|]. destruct d as [|d]; [discriminate|].
  unfold mbind, result_bind. repeat case_match; intros Hv; simplify_eq; eauto.
Qed.

(** [json.loads] of a text that begins with '{' is a dict or raises one of
    its exceptions. *)
Lemma json_loads_brace (lim : py_limits) (r : string) :
  (exists kvs, json_loads lim (String "{" r) = Ok (JObj kvs)) \/
  exists e, json_loads lim (String "{" r) = Raise e /\ json_exc e.
Proof.
  unfold json_loads. cbn [skip_ws is_ws Ascii.eqb Bool.eqb orb].
  match goal with |- context [scan_value ?l ?n ?d ?s] =>
    destruct (scan_value l n d s) as [[v rest]|e] eqn:E end.
  - destruct (scan_value_brace _ _ _ _ _ _ E) as [kvs ->].
    destruct (skip_ws rest); [left; eauto|right; eexists; split; [reflexivity|left; done]].
  - right. exists e. split; [reflexivity|]. exact (proj1 (scan_errors _ _) _ _ _ E).
Qed.

(** ** C6 *)

(** C6 (counterexample): the secret texts "{", [{"a": 111...1}] with a
    4301-digit integer, and [{"a": [[...]]}] with 1000 nested arrays all
    begin with '{', and the resolver raises for each instead of returning
    a mapping: a JSON decoding error, ValueError (integer string
    conversion limit) and RecursionError under CPython 3.11's defaults. *)
Lemma C6_counterexample :
  String.prefix "{" "{" = true /\
  get_secrets cpython_limits (fun _ => Ok "{") "Vonage/cloudquery/cloudquery"
  = Raise JSONDecodeError /\
  get_secrets cpython_limits (fun _ => Ok secret_long_int) "Vonage/cloudquery/cloudquery"
  = Raise ValueError /\
  get_secrets cpython_limits (fun _ => Ok secret_deep) "Vonage/cloudquery/cloudquery"
  = Raise RecursionError.
Proof. split; [|split; [|split]]; vm_compute; reflexivity. Qed.

(** C6 (amended): when the fetch returns the text [secret], a secret that
    begins with '{' is passed to [json.loads]: the resolver returns a
    mapping when the text is one JSON object within the interpreter's
    limits, and otherwise raises a JSON decoding error (text that is not
    one JSON object), ValueError (an integer of more digits than
    [int_max_str_digits]) or RecursionError (objects and arrays nested
    deeper than the recursion budget).  Any other secret is returned
    unchanged as a string.  [{"host":"db","port":"5432"}] gives the
    mapping with keys host and port whenever one level of nesting is
    allowed; [plaintext-token] gives that string. *)
Theorem C6_secret_shape (lim : py_limits) (store : string -> result string)
    (name secret : string) :
  store name = Ok secret ->
  (String.prefix "{" secret = true ->
     get_secrets lim store name = json_loads lim secret /\
     ((exists kvs, get_secrets lim store name = Ok (JObj kvs)) \/
      get_secrets lim store name = Raise JSONDecodeError \/
      get_secrets lim store name = Raise ValueError \/
      get_secrets lim store name = Raise RecursionError)) /\
  (String.prefix "{" secret = false -> get_secrets lim store name = Ok (JStr secret)) /\
  (1 <= recursion_budget lim ->
     decode_secret lim secret_db_json = Ok (JObj [("host", JStr "db"); ("port", JStr "5432")])) /\
  decode_secret lim "plaintext-token" = Ok (JStr "plaintext-token").
Proof.
  intros Hs. unfold get_secrets. unfold_bind. rewrite Hs.
  split; [|split; [|split]].
  - unfold decode_secret. intros Hp. rewrite Hp. split; [reflexivity|].
    destruct secret as [|c r]; [discriminate|].
    destruct (Ascii.ascii_dec c "{") as [->|Hne].
    + destruct (json_loads_brace lim r) as [[kvs ->]|[e [-> [->|[->| ->]]]]]; eauto.
    + exfalso. cbn [String.prefix] in Hp.
      destruct (ascii_dec "{" c) as [E|E]; [congruence|discriminate Hp].
  - unfold decode_secret. intros Hp. rewrite Hp. reflexivity.
  - intros Hb. destruct lim as [[|b] m]; simpl in Hb; [lia|].
    vm_compute. reflexivity.
  - reflexivity.
Qed.

Lemma C6_secret_shape_witness :
  String.prefix "{" secret_db_json = true /\ 1 <= recursion_budget cpython_limits /\
  (String.prefix "{" secret_db_json = true ->
     get_secrets cpython_limits (fun _ => Ok secret_db_json) "Vonage/cloudquery/cloudquery"
       = json_loads cpython_limits secret_db_json /\
     ((exists kvs, get_secrets cpython_limits (fun _ => Ok secret_db_json)
                     "Vonage/cloudquery/cloudquery" = Ok (JObj kvs)) \/
      get_secrets cpython_limits (fun _ => Ok secret_db_json) "Vonage/cloudquery/cloudquery"
        = Raise JSONDecodeError \/
      get_secrets cpython_limits (fun _ => Ok secret_db_json) "Vonage/cloudquery/cloudquery"
        = Raise ValueError \/
      get_secrets cpython_limits (fun _ => Ok secret_db_json) "Vonage/cloudquery/cloudquery"
        = Raise RecursionError)) /\
  (1 <= recursion_budget cpython_limits ->
     decode_secret cpython_limits secret_db_json
     = Ok (JObj [("host", JStr "db"); ("port", JStr "5432")])).
Proof.
  destruct (C6_secret_shape cpython_limits (fun _ => Ok secret_db_json)
              "Vonage/cloudquery/cloudquery" secret_db_json eq_refl) as [H1 [_ [H3 _]]].
  split; [vm_compute; reflexivity|]. split; [vm_compute; lia|]. split; [exact H1|exact H3].
Defined.

(** ** C7 *)

(** C7: with the connection settings lambda_handler builds (host, port,
    user, password), the employee write calls [psycopg2.connect] with no
    [connect_timeout] and no [options] keyword, so neither a connect
    timeout nor a statement timeout is set; the application write passes
    [connect_timeout=10] and [options='-c statement_timeout=30000']. *)
Theorem C7_emp_write_has_no_timeouts (host port user password : pyjson) :
  ("connect_timeout" ∉ (emp_connect_kwargs
     [("host", host); ("port", port); ("user", user); ("password", password)]).*1) /\
  ("options" ∉ (emp_connect_kwargs
     [("host", host); ("port", port); ("user", user); ("password", password)]).*1) /\
  (("connect_timeout", JNum "10") ∈ app_connect_kwargs
     [("host", host); ("port", port); ("user", user); ("password", password)]) /\
  (("options", JStr "-c statement_timeout=30000") ∈ app_connect_kwargs
     [("host", host); ("port", port); ("user", user); ("password", password)]).
Proof.
  unfold emp_connect_kwargs, app_connect_kwargs. simpl.
  split; [|split; [|split]].
  - rewrite !elem_of_cons, elem_of_nil. intros H.
    repeat (destruct H as [H|H]; [discriminate H|]). exact H.
  - rewrite !elem_of_cons, elem_of_nil. intros H.
    repeat (destruct H as [H|H]; [discriminate H|]). exact H.
  - rewrite !elem_of_cons. do 4 right. left. reflexivity.
  - rewrite !elem_of_cons. do 5 right. left. reflexivity.
Qed.

(** ** C10 *)

(** C10: when the temporary file is created but [json.dump(credentials,
    temp_file)] raises, read_google_sheet_data raises and the temporary
    file, which may hold part of the credentials, is still on disk: the
    [finally] block only removes [temp_file_path], which is assigned after
    the dump. *)
Theorem C10_temp_file_left_on_dump_error (env : fs_env)
    (service : string -> string -> result (list row))
    (url ws : string) (creds token : pyjson) (fs : gset string) :
  tmp_create_ok env = true -> cred_dump_ok env = false ->
  (read_google_sheet_data env service url ws creds token fs).1 = Raise OSError /\
  tmp_name env ∈ (read_google_sheet_data env service url ws creds token fs).2.
Proof.
  intros Hc Hd. unfold read_google_sheet_data, try_finally, read_body.
  unfold pbind, step, pret, praise, create_file, pmodify. rewrite Hc, Hd. simpl.
  unfold cleanup, remove_if_exists, pbind, pget, pret. simpl. split; [reflexivity|].
  set_solver.
Qed.

Lemma C10_temp_file_left_on_dump_error_witness :
  (read_google_sheet_data fs_dump_fails (fun _ _ => Ok [header; alice]) sheet_url_emp
     "VonagePersonVSAAttributes" (JObj []) (JObj []) ∅).1 = Raise OSError /\
  tmp_name fs_dump_fails ∈ (read_google_sheet_data fs_dump_fails (fun _ _ => Ok [header; alice])
     sheet_url_emp "VonagePersonVSAAttributes" (JObj []) (JObj []) ∅).2.
Proof. apply C10_temp_file_left_on_dump_error; reflexivity. Defined.

(* ------------------------------------------------------------------ *)
(** ** More on read_google_sheet_data *)

Ltac read_unfold :=
  unfold read_google_sheet_data, try_finally, read_body, cleanup, remove_if_exists,
    pbind, step, pret, praise, lift_result, pget, create_file, remove_file,
    set_temp_file_path, set_sheets_token_path, pmodify.

(** The function only returns rows the sheet service returned. *)
Lemma read_ok_from_service (env : fs_env)
    (service : string -> string -> result (list row))
    (url ws : string) (creds token : pyjson) (fs : gset string) (rows : list row) :
  (read_google_sheet_data env service url ws creds token fs).1 = Ok rows ->
  service url ws = Ok rows.
Proof.
  read_unfold.
  destruct (tmp_create_ok env), (cred_dump_ok env), (token_open_ok env),
    (token_dump_ok env), (service url ws); simpl;
    repeat (case_decide; simpl); congruence.
Qed.

Lemma read_other_files (env : fs_env)
    (service : string -> string -> result (list row))
    (url ws : string) (creds token : pyjson) (fs : gset string) (p : string) :
  p <> tmp_name env -> p <> sheets_token_file ->
  p ∈ (read_google_sheet_data env service url ws creds token fs).2 <-> p ∈ fs.
Proof.
  intros H1 H2. read_unfold.
  destruct (tmp_create_ok env), (cred_dump_ok env), (token_open_ok env),
    (token_dump_ok env), (service url ws); simpl;
    repeat (case_decide; simpl); set_solver.
Qed.

(** X2: read_google_sheet_data creates, and removes, only its temporary
    credentials file and the token file: every other file is on disk
    afterwards exactly when it was before. *)
Theorem read_frame (env : fs_env)
    (service : string -> string -> result (list row))
    (url ws : string) (creds token : pyjson) (fs : gset string) (p : string) :
  p <> tmp_name env -> p <> sheets_token_file ->
  p ∈ (read_google_sheet_data env service url ws creds token fs).2 <-> p ∈ fs.
Proof. apply read_other_files. Qed.

Lemma read_frame_witness :
  ("/tmp/other.txt" ∈ (read_google_sheet_data fs_dump_fails (fun _ _ => Ok [header; alice])
     sheet_url_emp "VonagePersonVSAAttributes" (JObj []) (JObj []) {["/tmp/other.txt"]}).2
   <-> "/tmp/other.txt" ∈ ({["/tmp/other.txt"]} : gset string)) /\
  "/tmp/other.txt" ∈ (read_google_sheet_data fs_dump_fails (fun _ _ => Ok [header; alice])
     sheet_url_emp "VonagePersonVSAAttributes" (JObj []) (JObj []) {["/tmp/other.txt"]}).2.
Proof.
  assert (Hf := read_frame fs_dump_fails (fun _ _ => Ok [header; alice]) sheet_url_emp
            "VonagePersonVSAAttributes" (JObj []) (JObj []) {["/tmp/other.txt"]}
            "/tmp/other.txt" ltac:(vm_compute; discriminate) ltac:(vm_compute; discriminate)).
  split; [exact Hf|]. apply Hf. set_solver.
Defined.

(** X4: when every file step succeeds, read_google_sheet_data returns
    exactly what the sheet service returns: its rows, or its exception
    re-raised unchanged. *)
Theorem read_returns_service_result (env : fs_env)
    (service : string -> string -> result (list row))
    (url ws : string) (creds token : pyjson) (fs : gset string) :
  tmp_create_ok env = true -> cred_dump_ok env = true ->
  token_open_ok env = true -> token_dump_ok env = true ->
  (read_google_sheet_data env service url ws creds token fs).1 = service url ws.
Proof.
  intros H1 H2 H3 H4. read_unfold. rewrite H1, H2, H3, H4. simpl.
  destruct (service url ws); simpl; repeat (case_decide; simpl); reflexivity.
Qed.

Lemma read_returns_service_result_witness :
  (read_google_sheet_data fs_all_ok (fun _ _ => Raise (SheetError "WorksheetNotFound"))
     sheet_url_emp "VonagePersonVSAAttributes" (JObj []) (JObj []) ∅).1
  = Raise (SheetError "WorksheetNotFound").
Proof. apply read_returns_service_result; reflexivity. Defined.

(* ------------------------------------------------------------------ *)
(** ** More on the import functions *)

Lemma lookup_fold_upsert_other (columns unique_columns : list string)
    (kps : list (list string * row)) (t : table) (k : list string) :
  k ∉ kps.*1 ->
  fold_left (upsert_row columns unique_columns) kps t !! k = t !! k.
Proof.
  revert t. induction kps as [|[k' r] kps IH]; intros t Hk; simpl; [reflexivity|].
  rewrite IH by set_solver. unfold upsert_row.
  destruct (t !! k'); rewrite lookup_insert_ne by set_solver; reflexivity.
Qed.

Lemma lookup_fold_upsert_some (columns unique_columns : list string)
    (kps : list (list string * row)) (t : table) (k : list string) :
  k ∈ kps.*1 -> is_Some (fold_left (upsert_row columns unique_columns) kps t !! k).
Proof.
  revert t. induction kps as [|[k' r] kps IH]; intros t Hk; simpl; [set_solver|].
  destruct (decide (k ∈ kps.*1)); [apply IH; done|].
  assert (k' = k) as -> by set_solver.
  rewrite lookup_fold_upsert_other by done. unfold upsert_row.
  destruct (t !! k); rewrite lookup_insert_eq; eauto.
Qed.

(** X5: a committed import never deletes a row: afterwards the table holds
    a row under a conflict-target tuple exactly when it held one before or
    some VALUES row of the batch carries that tuple, and the row under any
    tuple no VALUES row carries is unchanged.  Both import functions are
    [import_to_postgres] with their columns and batch. *)
Theorem import_keeps_other_rows (columns unique_columns : list string)
    (prepare : list row -> result (list row)) (env : db_env)
    (data batch : list row) (t t' : table) :
  import_to_postgres columns unique_columns prepare env data t = (Ok (), t') ->
  prepare data = Ok batch ->
  (forall k, is_Some (t' !! k) <->
     is_Some (t !! k) \/ exists r, r ∈ batch /\ unique_key columns unique_columns r = Ok k) /\
  (forall k, (forall r, r ∈ batch -> unique_key columns unique_columns r <> Ok k) ->
     t' !! k = t !! k).
Proof.
  intros Himp Hprep.
  destruct (import_to_postgres_atomic _ _ _ _ _ _ _ _ Himp)
    as [[_ [batch' [kps [Hprep' [Hkps [Hwf ->]]]]]]|[e [[=] _]]].
  rewrite Hprep in Hprep'. injection Hprep' as <-.
  subst batch. rewrite Forall_forall in Hwf.
  assert (Hkey : forall k, k ∈ kps.*1 <->
            exists r, r ∈ kps.*2 /\ unique_key columns unique_columns r = Ok k).
  { intros k. split.
    - intros Hk. apply list_elem_of_fmap in Hk as [[k' r] [-> Hin]].
      exists r. split; [apply list_elem_of_fmap; exists (k', r); auto|].
      exact (proj1 (Hwf _ Hin)).
    - intros [r [Hr Hkr]]. apply list_elem_of_fmap in Hr as [[k' r'] [-> Hin]].
      destruct (Hwf _ Hin) as [Hk' _]. cbn [fst snd] in Hk', Hkr.
      rewrite Hkr in Hk'. injection Hk' as ->.
      apply list_elem_of_fmap. exists (k', r'). auto. }
  split.
  - intros k. rewrite <- Hkey. destruct (decide (k ∈ kps.*1)) as [Hin|Hout].
    + split; [intros _; right; done|intros _]. apply lookup_fold_upsert_some. done.
    + rewrite lookup_fold_upsert_other by done. tauto.
  - intros k Hnone. apply lookup_fold_upsert_other. rewrite Hkey.
    intros [r [Hr Hkr]]. exact (Hnone r Hr Hkr).
Qed.

Lemma import_keeps_other_rows_witness :
  (forall k, is_Some ((import_app_data_to_postgres (fun _ => reliable_db) [header; app1]
       db_config_example {[["Wiki"] := new_row app_columns app2]}).2 !! k) <->
     is_Some (({[["Wiki"] := new_row app_columns app2]} : table) !! k) \/
     exists r, r ∈ [app1] /\ unique_key app_columns unique_columns_apps r = Ok k) /\
  (forall k, (forall r, r ∈ [app1] -> unique_key app_columns unique_columns_apps r <> Ok k) ->
     (import_app_data_to_postgres (fun _ => reliable_db) [header; app1]
        db_config_example {[["Wiki"] := new_row app_columns app2]}).2 !! k
     = ({[["Wiki"] := new_row app_columns app2]} : table) !! k).
Proof.
  apply (import_keeps_other_rows app_columns unique_columns_apps app_batch reliable_db
           [header; app1] [app1] {[["Wiki"] := new_row app_columns app2]}).
  - vm_decide.
  - vm_compute. reflexivity.
Defined.

(** X6: the duplicate filter of import_app_data_to_postgres raises
    IndexError exactly when some data row has no cell ([row[0]] of an
    empty row); otherwise it succeeds. *)
Theorem app_batch_index_error (data : list row) :
  (app_batch data = Raise IndexError <-> [] ∈ py_slice1 data) /\
  ([] ∉ py_slice1 data -> exists out, app_batch data = Ok out).
Proof.
  unfold app_batch. generalize (∅ : gset (list string)) as seen.
  generalize (py_slice1 data) as values. intros values.
  induction values as [|r values IH]; intros seen; cbn [dedup_loop].
  - split; [split; [discriminate|set_solver]|eauto].
  - unfold_bind. rewrite unique_key_app. destruct r as [|v r].
    + split; [split; [intros _; set_solver|reflexivity]|intros H; set_solver].
    + destruct (decide ([v] ∈ seen)).
      * destruct (IH seen) as [[H1 H2] H3]. split; [|intros H; apply H3; set_solver].
        rewrite elem_of_cons. split; [intros H; right; auto|].
        intros [[=]|H]; auto.
      * destruct (IH ({[[v]]} ∪ seen)) as [[H1 H2] H3].
        split.
        -- rewrite elem_of_cons. destruct (dedup_loop _ _ _ values) as [rs|e] eqn:E.
           ++ split; [discriminate|]. intros [[=]|H].
              specialize (H2 H). discriminate.
           ++ split; [intros [= ->]; right; auto|]. intros [[=]|H].
              specialize (H2 H). injection H2 as ->. reflexivity.
        -- intros Hn. destruct H3 as [out Hout]; [set_solver|]. rewrite Hout. eauto.
Qed.

Lemma app_batch_index_error_witness :
  ([] ∉ py_slice1 [header; app1; app2]) /\ exists out, app_batch [header; app1; app2] = Ok out.
Proof.
  assert (Hn : [] ∉ py_slice1 [header; app1; app2]).
  { change (py_slice1 [header; app1; app2]) with [app1; app2].
    rewrite !elem_of_cons, elem_of_nil. intros [H|[H|H]]; done. }
  split; [exact Hn|]. exact (proj2 (app_batch_index_error [header; app1; app2]) Hn).
Defined.

Section DedupComplete.
Variables columns unique_columns : list string.
Local Abbreviation uk := (unique_key columns unique_columns).

Lemma dedup_loop_complete (seen : gset (list string)) (values out : list row)
    (r : row) (k : list string) :
  dedup_loop columns unique_columns seen values = Ok out ->
  r ∈ values -> uk r = Ok k ->
  k ∈ seen \/ exists r', r' ∈ out /\ uk r' = Ok k.
Proof.
  revert seen out. induction values as [|r0 values IH]; intros seen out H Hr Hk;
    simpl in H; [set_solver|].
  unfold_bind. destruct (uk r0) as [k0|] eqn:Hk0; [|discriminate].
  destruct (decide (k0 ∈ seen)).
  - apply elem_of_cons in Hr as [->|Hr].
    + left. rewrite Hk in Hk0. injection Hk0 as ->. done.
    + eapply IH; eauto.
  - destruct (dedup_loop _ _ _ values) as [rs|] eqn:E; [|discriminate].
    injection H as <-.
    apply elem_of_cons in Hr as [->|Hr].
    + right. exists r0. rewrite Hk in Hk0. injection Hk0 as ->. split; [set_solver|done].
    + destruct (IH _ _ E Hr Hk) as [Hs|[r' [Hr' Hk']]].
      * apply elem_of_union in Hs as [Hs|Hs].
        -- apply elem_of_singleton in Hs as ->. right. exists r0. split; [set_solver|done].
        -- left. done.
      * right. exists r'. split; [set_solver|done].
Qed.
End DedupComplete.

(** X7: the duplicate filter loses no key: every key tuple carried by a
    data row of the application worksheet is carried by some row of the
    batch written (the first row with that tuple). *)
Theorem app_batch_keeps_every_key (data out : list row) (r : row) (k : list string) :
  app_batch data = Ok out -> r ∈ py_slice1 data ->
  unique_key app_columns unique_columns_apps r = Ok k ->
  exists r', r' ∈ out /\ unique_key app_columns unique_columns_apps r' = Ok k.
Proof.
  intros H Hr Hk.
  destruct (dedup_loop_complete _ _ _ _ _ _ _ H Hr Hk) as [Hs|Hex]; [set_solver|exact Hex].
Qed.

Lemma app_batch_keeps_every_key_witness :
  exists r', r' ∈ [app1] /\ unique_key app_columns unique_columns_apps r' = Ok ["Portal"].
Proof.
  apply (app_batch_keeps_every_key [header; app1; app2] [app1] app2 ["Portal"]).
  - vm_compute. reflexivity.
  - change (py_slice1 [header; app1; app2]) with [app1; app2]. set_solver.
  - reflexivity.
Defined.

(** X8: the upsert needs every VALUES row to have one cell per schema
    column.  If a data row of the employee worksheet does not have exactly 7
    cells, or a row of the application batch does not have exactly 8 (a
    row whose trailing empty cells were dropped by [get_all_values] is
    one), the import raises and the committed table is unchanged. *)
Theorem import_rejects_wrong_length (connect : list (string * pyjson) -> db_env)
    (data : list row) (db_config : list (string * pyjson)) (t t' : table)
    (res : result unit) (r : row) :
  (r ∈ py_slice1 data -> length r <> length emp_columns ->
   import_emp_data_to_postgres connect data db_config t = (res, t') ->
   (exists e, res = Raise e) /\ t' = t) /\
  (forall out, app_batch data = Ok out -> r ∈ out -> length r <> length app_columns ->
   import_app_data_to_postgres connect data db_config t = (res, t') ->
   (exists e, res = Raise e) /\ t' = t).
Proof.
  split.
  - intros Hr Hlen H. eapply import_wrong_length; [exact H|reflexivity|exact Hr|exact Hlen].
  - intros out Hout Hr Hlen H. eapply import_wrong_length; [exact H|exact Hout|exact Hr|exact Hlen].
Qed.

Lemma import_rejects_wrong_length_witness :
  ((exists e, fst (import_emp_data_to_postgres (fun _ => reliable_db)
                     [header; ["Bob"; "b@x.com"; "Y"]] db_config_example emp_table_example)
              = Raise e) /\
   snd (import_emp_data_to_postgres (fun _ => reliable_db)
          [header; ["Bob"; "b@x.com"; "Y"]] db_config_example emp_table_example)
   = emp_table_example) /\
  ((exists e, fst (import_app_data_to_postgres (fun _ => reliable_db)
                     [header; ["Wiki"; "dan"]] db_config_example ∅) = Raise e) /\
   snd (import_app_data_to_postgres (fun _ => reliable_db)
          [header; ["Wiki"; "dan"]] db_config_example ∅) = ∅).
Proof.
  split.
  - apply (proj1 (import_rejects_wrong_length (fun _ => reliable_db)
             [header; ["Bob"; "b@x.com"; "Y"]] db_config_example emp_table_example
             (snd (import_emp_data_to_postgres (fun _ => reliable_db)
                     [header; ["Bob"; "b@x.com"; "Y"]] db_config_example emp_table_example))
             (fst (import_emp_data_to_postgres (fun _ => reliable_db)
                     [header; ["Bob"; "b@x.com"; "Y"]] db_config_example emp_table_example))
             ["Bob"; "b@x.com"; "Y"])).
    + change (py_slice1 [header; ["Bob"; "b@x.com"; "Y"]]) with [["Bob"; "b@x.com"; "Y"]].
      set_solver.
    + vm_compute. discriminate.
    + apply surjective_pairing.
  - apply (proj2 (import_rejects_wrong_length (fun _ => reliable_db)
             [header; ["Wiki"; "dan"]] db_config_example ∅
             (snd (import_app_data_to_postgres (fun _ => reliable_db)
                     [header; ["Wiki"; "dan"]] db_config_example ∅))
             (fst (import_app_data_to_postgres (fun _ => reliable_db)
                     [header; ["Wiki"; "dan"]] db_config_example ∅))
             ["Wiki"; "dan"]) [["Wiki"; "dan"]]).
    + vm_compute. reflexivity.
    + set_solver.
    + vm_compute. discriminate.
    + apply surjective_pairing.
Defined.

(* ------------------------------------------------------------------ *)
(** ** More on lambda_handler *)

Lemma read_ok_from_service_eq (env : fs_env)
    (service : string -> string -> result (list row))
    (url ws : string) (creds token : pyjson) (fs fs' : gset string) (rows : list row) :
  read_google_sheet_data env service url ws creds token fs = (Ok rows, fs') ->
  service url ws = Ok rows.
Proof.
  intros H. apply (read_ok_from_service env service url ws creds token fs).
  rewrite H. reflexivity.
Qed.

Lemma pbind_ok_step {S A B} (m : PyM S A) (k : A -> PyM S B) (s s' : S) (a : A) :
  m s = (Ok a, s') -> pbind m k s = k a s'.
Proof. unfold pbind. intros ->. reflexivity. Qed.

Lemma pbind_raise_step {S A B} (m : PyM S A) (k : A -> PyM S B) (s s' : S) (e : exc) :
  m s = (Raise e, s') -> pbind m k s = (Raise e, s').
Proof. unfold pbind. intros ->. reflexivity. Qed.

Lemma lift_result_inv {S A} (x r : result A) (s s' : S) :
  lift_result x s = (r, s') -> x = r /\ s' = s.
Proof. unfold lift_result. intros [= -> ->]. done. Qed.

Lemma read_sheet_inv (env : fs_env) (service : string -> string -> result (list row))
    (url ws : string) (creds token : pyjson) (hs hs' : handler_state)
    (r : result (list row)) :
  read_sheet env service url ws creds token hs = (r, hs') ->
  emp_table hs' = emp_table hs /\ app_table hs' = app_table hs /\
  (forall rows, r = Ok rows -> service url ws = Ok rows) /\
  (forall p, p <> tmp_name env -> p <> sheets_token_file -> p ∈ disk hs' <-> p ∈ disk hs).
Proof.
  unfold read_sheet.
  destruct (read_google_sheet_data env service url ws creds token (disk hs))
    as [r0 fs'] eqn:E.
  intros [= <- <-]. simpl. split; [done|]. split; [done|]. split.
  - intros rows ->. eapply read_ok_from_service_eq. exact E.
  - intros p H1 H2. rewrite <- (read_other_files env service url ws creds token (disk hs) p H1 H2).
    rewrite E. reflexivity.
Qed.

Lemma import_emp_inv (connect : list (string * pyjson) -> db_env) (data : list row)
    (db_config : list (string * pyjson)) (hs hs' : handler_state) (r : result unit) :
  import_emp connect data db_config hs = (r, hs') ->
  import_emp_data_to_postgres connect data db_config (emp_table hs) = (r, emp_table hs') /\
  app_table hs' = app_table hs /\ disk hs' = disk hs.
Proof.
  unfold import_emp.
  destruct (import_emp_data_to_postgres connect data db_config (emp_table hs)) eqn:E.
  intros [= <- <-]. simpl. auto.
Qed.

Lemma import_app_inv (connect : list (string * pyjson) -> db_env) (data : list row)
    (db_config : list (string * pyjson)) (hs hs' : handler_state) (r : result unit) :
  import_app connect data db_config hs = (r, hs') ->
  import_app_data_to_postgres connect data db_config (app_table hs) = (r, app_table hs') /\
  emp_table hs' = emp_table hs /\ disk hs' = disk hs.
Proof.
  unfold import_app.
  destruct (import_app_data_to_postgres connect data db_config (app_table hs)) eqn:E.
  intros [= <- <-]. simpl. auto.
Qed.

(** Run the statements of [handler_body] one at a time in hypothesis [H]. *)
Ltac peel H :=
  match type of H with
  | context [pbind ?m ?k ?s] =>
      let E := fresh "E" in
      destruct (m s) as [[?|?] ?] eqn:E;
      [rewrite (pbind_ok_step m k s _ _ E) in H|rewrite (pbind_raise_step m k s _ _ E) in H];
      cbv beta in H
  end.

Ltac step_facts :=
  repeat match goal with
  | E : lift_result _ _ = _ |- _ => apply lift_result_inv in E as [? ->]
  | E : read_sheet _ _ _ _ _ _ _ = _ |- _ => apply read_sheet_inv in E as (? & ? & ? & ?)
  | E : import_emp _ _ _ _ = _ |- _ => apply import_emp_inv in E as (? & ? & ?)
  | E : import_app _ _ _ _ = _ |- _ => apply import_app_inv in E as (? & ? & ?)
  | u : unit |- _ => destruct u
  end.

Ltac norm_tables :=
  repeat match goal with
  | Hx : emp_table ?a = emp_table ?b |- _ => rewrite Hx in *; clear Hx
  | Hx : app_table ?a = app_table ?b |- _ => rewrite Hx in *; clear Hx
  | Hx : disk ?a = disk ?b |- _ => rewrite Hx in *; clear Hx
  end.

Lemma handler_body_tables (w : world) (hs hs' : handler_state) (r : result response) :
  handler_body w hs = (r, hs') ->
  (emp_table hs' = emp_table hs /\ app_table hs' = app_table hs /\ exists e, r = Raise e) \/
  (exists data_emp data_apps db_config e,
     sheet_service w sheet_url_emp "VonagePersonVSAAttributes" = Ok data_emp /\
     sheet_service w sheet_url_apps "Current VSA Master List" = Ok data_apps /\
     import_emp_data_to_postgres (db_connect w) data_emp db_config (emp_table hs)
       = (Raise e, emp_table hs') /\
     app_table hs' = app_table hs /\ r = Raise e) \/
  (exists data_emp data_apps db_config rapp,
     sheet_service w sheet_url_emp "VonagePersonVSAAttributes" = Ok data_emp /\
     sheet_service w sheet_url_apps "Current VSA Master List" = Ok data_apps /\
     import_emp_data_to_postgres (db_connect w) data_emp db_config (emp_table hs)
       = (Ok (), emp_table hs') /\
     import_app_data_to_postgres (db_connect w) data_apps db_config (app_table hs)
       = (rapp, app_table hs') /\
     (rapp = Ok () -> exists resp, r = Ok resp) /\
     (forall e, rapp = Raise e -> r = Raise e)).
Proof.
  unfold handler_body. cbv zeta. intros H.
  repeat peel H; unfold pret in H; injection H as <- <-; step_facts; norm_tables.
  all: try (left; split; [reflexivity|split; [reflexivity|eauto]]; fail).
  all: try (right; left; do 4 eexists; split; [eauto|]; split; [eauto|];
            split; [eassumption|]; split; reflexivity; fail).
  all: right; right; do 4 eexists; split; [eauto|]; split; [eauto|];
    split; [eassumption|]; split; [eassumption|];
    split; [intros Hok; first [solve [eauto]|discriminate Hok]
           |intros e0 He0; first [discriminate He0|injection He0 as ->; reflexivity]].
Qed.

Lemma handler_body_disk (w : world) (hs hs' : handler_state) (r : result response)
    (p : string) :
  handler_body w hs = (r, hs') ->
  p <> tmp_name (fs_emp_read w) -> p <> tmp_name (fs_app_read w) ->
  p <> sheets_token_file ->
  p ∈ disk hs' <-> p ∈ disk hs.
Proof.
  unfold handler_body. cbv zeta. intros H Hp1 Hp2 Hp3.
  repeat peel H; unfold pret in H; injection H as <- <-; step_facts; norm_tables.
  all: repeat match goal with
    | Hx : forall q, q <> ?t -> q <> sheets_token_file -> q ∈ disk ?a <-> q ∈ disk ?b |- _ =>
        rewrite (Hx p) by done; clear Hx
    end.
  all: reflexivity.
Qed.

Lemma handler_body_secrets_first (w : world) (hs hs' : handler_state) (r : result response) :
  handler_body w hs = (r, hs') ->
  hs' = hs \/
  exists db_secrets google_secrets gapi_sheets_token google_decoded host port user password,
    get_secrets (limits w) (secret_store w) "Vonage/cloudquery/cloudquery" = Ok db_secrets /\
    get_secrets (limits w) (secret_store w) "vonage/googleapi/sheets" = Ok google_secrets /\
    get_secrets (limits w) (secret_store w) "vonage/googleapi/sheets-tokens" = Ok gapi_sheets_token /\
    (match google_secrets with JStr s => json_loads (limits w) s | v => Ok v end) = Ok google_decoded /\
    py_subscript db_secrets "host" = Ok host /\
    py_subscript db_secrets "port" = Ok port /\
    py_subscript db_secrets "rw-user" = Ok user /\
    py_subscript db_secrets "password" = Ok password.
Proof.
  unfold handler_body. cbv zeta. intros H.
  repeat peel H; unfold pret in H; injection H as <- <-;
    repeat match goal with
    | E : lift_result _ _ = _ |- _ => apply lift_result_inv in E as [? ->]
    end.
  all: first [left; reflexivity|right; do 8 eexists; repeat split; eassumption].
Qed.

(** On [world_example] the employee import commits, the application
    import fails on the two-cell row, and the handler answers 500 with the
    employee table already changed. *)
Example handler_partial_commit :
  statusCode (lambda_handler world_example hs_example).1 = 500 /\
  emp_table (lambda_handler world_example hs_example).2
  = {[["a@x.com"] := new_row emp_columns alice]} /\
  app_table (lambda_handler world_example hs_example).2 = ∅.
Proof. split; [vm_compute; reflexivity|]. split; vm_decide. Qed.

(** X9: the two tables change only through the two imports, and the
    application import runs only after the employee import has returned.
    Either the invocation fails before the employee import, and then both
    tables are as before and the status is 500; or both sheets were read
    from the sheet service and the employee import raised: the employee
    table is what that call left (nothing, or its whole batch when the
    commit reply was lost), the application table is as before and the
    status is 500; or both sheets were read, the employee import returned,
    and the application import then ran with the same connection
    settings: the status is 200 exactly when that second import returned.
    So a failed application import leaves the committed employee import in
    place. *)
Theorem lambda_handler_tables (w : world) (hs : handler_state) :
  (emp_table (lambda_handler w hs).2 = emp_table hs /\
   app_table (lambda_handler w hs).2 = app_table hs /\
   statusCode (lambda_handler w hs).1 = 500) \/
  (exists data_emp data_apps db_config e,
     sheet_service w sheet_url_emp "VonagePersonVSAAttributes" = Ok data_emp /\
     sheet_service w sheet_url_apps "Current VSA Master List" = Ok data_apps /\
     import_emp_data_to_postgres (db_connect w) data_emp db_config (emp_table hs)
       = (Raise e, emp_table (lambda_handler w hs).2) /\
     app_table (lambda_handler w hs).2 = app_table hs /\
     statusCode (lambda_handler w hs).1 = 500) \/
  (exists data_emp data_apps db_config r,
     sheet_service w sheet_url_emp "VonagePersonVSAAttributes" = Ok data_emp /\
     sheet_service w sheet_url_apps "Current VSA Master List" = Ok data_apps /\
     import_emp_data_to_postgres (db_connect w) data_emp db_config (emp_table hs)
       = (Ok (), emp_table (lambda_handler w hs).2) /\
     import_app_data_to_postgres (db_connect w) data_apps db_config (app_table hs)
       = (r, app_table (lambda_handler w hs).2) /\
     (statusCode (lambda_handler w hs).1 = 200 <-> r = Ok ())).
Proof.
  unfold lambda_handler.
  destruct (handler_body w hs) as [res hs'] eqn:EH.
  pose proof (handler_body_ok w hs hs') as Hok.
  destruct (handler_body_tables w hs hs' res EH)
    as [[He [Ha [e0 ->]]]
       |[[de [da [cfg [e0 (Hs1 & Hs2 & Hi1 & Ha & ->)]]]]
        |[de [da [cfg [rapp (Hs1 & Hs2 & Hi1 & Hi2 & Hr1 & Hr2)]]]]]].
  - left. simpl. auto.
  - right. left. exists de, da, cfg, e0. simpl. auto.
  - right. right. exists de, da, cfg, rapp.
    destruct res as [resp|e]; simpl; do 4 (split; [assumption|]).
    + rewrite (Hok resp EH). simpl. split; [intros _|reflexivity].
      destruct rapp as [[]|e]; [reflexivity|]. discriminate (Hr2 e eq_refl).
    + split; [discriminate|]. intros ->. destruct (Hr1 eq_refl) as [x [=]].
Qed.

(** X10: apart from the two temporary credentials files and the token
    file, lambda_handler leaves the set of files on disk as it found it. *)
Theorem lambda_handler_disk_frame (w : world) (hs : handler_state) (p : string) :
  p <> tmp_name (fs_emp_read w) -> p <> tmp_name (fs_app_read w) ->
  p <> sheets_token_file ->
  p ∈ disk (lambda_handler w hs).2 <-> p ∈ disk hs.
Proof.
  intros H1 H2 H3. unfold lambda_handler.
  destruct (handler_body w hs) as [[resp|e] hs'] eqn:EH; simpl;
    exact (handler_body_disk w hs hs' _ p EH H1 H2 H3).
Qed.

Lemma lambda_handler_disk_frame_witness :
  "/tmp/other.txt" ∈ disk (lambda_handler world_example hs_example).2.
Proof.
  apply (lambda_handler_disk_frame world_example hs_example "/tmp/other.txt");
    [vm_compute; discriminate|vm_compute; discriminate|vm_compute; discriminate|].
  vm_compute. set_solver.
Defined.

(** X11: lambda_handler touches neither the disk nor either table unless
    all three secrets were fetched and decoded (a plain-string Google
    secret is parsed with json.loads) and the database secret has the keys
    host, port, rw-user and password. *)
Theorem lambda_handler_secrets_first (w : world) (hs : handler_state) :
  (lambda_handler w hs).2 = hs \/
  exists db_secrets google_secrets gapi_sheets_token google_decoded host port user password,
    get_secrets (limits w) (secret_store w) "Vonage/cloudquery/cloudquery" = Ok db_secrets /\
    get_secrets (limits w) (secret_store w) "vonage/googleapi/sheets" = Ok google_secrets /\
    get_secrets (limits w) (secret_store w) "vonage/googleapi/sheets-tokens" = Ok gapi_sheets_token /\
    (match google_secrets with JStr s => json_loads (limits w) s | v => Ok v end) = Ok google_decoded /\
    py_subscript db_secrets "host" = Ok host /\
    py_subscript db_secrets "port" = Ok port /\
    py_subscript db_secrets "rw-user" = Ok user /\
    py_subscript db_secrets "password" = Ok password.
Proof.
  unfold lambda_handler.
  destruct (handler_body w hs) as [[resp|e] hs'] eqn:EH; simpl;
    exact (handler_body_secrets_first w hs hs' _ EH).
Qed.
